(** * Sentry / ClickUp editor extension: stores, correlator and MCP tool server

    A shallow embedding of the TypeScript sources
    ([sentry/client.ts], [stores/storeManager.ts], [stores/sentryStore.ts],
    [stores/clickupStore.ts], the legacy [IssueStore], [clickup/client.ts]
    and [mcp/server.ts]) together with the properties the specification
    states about them.

    Asynchronous functions are embedded in a small resumption monad: a run of
    an [async] function is a tree whose nodes are the [await] points on
    outbound requests, and whose continuations receive the settled response
    and the shared state as it is when the function resumes.  Running such a
    tree against an upstream gives the sequential semantics; resuming two
    trees alternately gives the interleavings of the single-threaded event
    loop. *)

From Stdlib Require Import ZArith Ascii String DecimalString.
From stdpp Require Import base option list strings gmap.

Local Open Scope list_scope.

(** ** JavaScript values used by the sources *)

Module JS.

(** [String.prototype.toLowerCase], on the ASCII range. *)
Definition lower_char (c : ascii) : ascii :=
  let n := nat_of_ascii c in
  if Nat.leb 65 n && Nat.leb n 90 then ascii_of_nat (n + 32) else c.

Fixpoint toLowerCase (s : string) : string :=
  match s with
  | EmptyString => EmptyString
  | String c s' => String (lower_char c) (toLowerCase s')
  end.

(** [String.prototype.includes]. *)
Fixpoint includes (s sub : string) : bool :=
  String.prefix sub s ||
  match s with
  | EmptyString => false
  | String _ s' => includes s' sub
  end.

(** [String.prototype.split] with a one-character separator. *)
Fixpoint split (sep : ascii) (s : string) : list string :=
  match s with
  | EmptyString => [EmptyString]
  | String c s' =>
      if Ascii.eqb c sep then EmptyString :: split sep s'
      else match split sep s' with
           | [] => [String c EmptyString]
           | w :: ws => String c w :: ws
           end
  end.

(** [Array.prototype.join]. *)
Fixpoint join (sep : string) (l : list string) : string :=
  match l with
  | [] => ""
  | [x] => x
  | x :: rest => x +:+ sep +:+ join sep rest
  end.

(** Truthiness of a string that may be [undefined]: the empty string and
    [undefined] are falsy. *)
Definition truthy (o : option string) : bool :=
  match o with
  | Some s => negb (String.eqb s "")
  | None => false
  end.

(** [a || b] on possibly-undefined strings. *)
Definition or (a b : option string) : option string :=
  if truthy a then a else b.

(** [a || "literal"]. *)
Definition or_default (a : option string) (d : string) : string :=
  match or a (Some d) with
  | Some s => s
  | None => d
  end.

(** A value interpolated in a template literal. *)
Definition show (o : option string) : string :=
  match o with
  | Some s => s
  | None => "undefined"
  end.

Definition show_Z (z : Z) : string := NilEmpty.string_of_int (Z.to_int z).

(** The line feed and the double quote, as one-character strings. *)
Definition nl : string := String "010" EmptyString.
Definition dquote : string := String "034" EmptyString.

(** [Array.prototype.find]. *)
Fixpoint find {A} (p : A -> bool) (l : list A) : option A :=
  match l with
  | [] => None
  | x :: rest => if p x then Some x else find p rest
  end.

(** [Array.prototype.slice(0, end)] for an integral [end]: a negative [end]
    counts from the end of the array. *)
Definition slice0 {A} (l : list A) (end_ : Z) : list A :=
  let len := Z.of_nat (length l) in
  let final := if (end_ <? 0)%Z then Z.max (len + end_) 0 else Z.min end_ len in
  take (Z.to_nat final) l.

(** [Array.prototype.slice(-n)] for a positive [n]. *)
Definition slice_last {A} (n : nat) (l : list A) : list A :=
  drop (length l - n) l.

(** A [Map] keeps its keys unique and in insertion order: [set] on a key
    already present replaces the value where it stands. *)
Definition Map (V : Type) : Type := list (string * V).

Fixpoint map_set {V} (k : string) (v : V) (m : Map V) : Map V :=
  match m with
  | [] => [(k, v)]
  | (k', v') :: rest =>
      if String.eqb k' k then (k', v) :: rest else (k', v') :: map_set k v rest
  end.

Fixpoint map_get {V} (k : string) (m : Map V) : option V :=
  match m with
  | [] => None
  | (k', v') :: rest => if String.eqb k' k then Some v' else map_get k rest
  end.

Definition map_keys {V} (m : Map V) : list string := m.*1.

End JS.

(** ** Data model ([sentry/types.ts], [clickup/types.ts]) *)

Inductive Level := error | warning | info | fatal | debug.

Definition level_to_string (l : Level) : string :=
  match l with
  | error => "error"
  | warning => "warning"
  | info => "info"
  | fatal => "fatal"
  | debug => "debug"
  end.

Record SentryConfig := {
  sentryUrl : string;
  apiToken : string;
  projectSlugs : list string
}.

Record SentryIssue := {
  id : string;
  title : string;
  culprit : option string;
  permalink : string;
  shortId : string;
  level : Level;
  status : string;
  count : string;
  userCount : Z;
  firstSeen : string;
  lastSeen : string;
  metadata_value : option string
}.

Record StackFrame := {
  filename : option string;
  absPath : option string;
  function : option string;
  lineNo : option Z
}.

Record ExceptionValue := {
  ex_type : string;
  ex_value : string;
  (** [stacktrace?.frames] *)
  stacktrace_frames : option (list StackFrame)
}.

Record EventEntry := {
  entry_type : string;
  (** [data?.values] *)
  entry_values : option (list ExceptionValue)
}.

Record Breadcrumb := {
  bc_timestamp : string;
  bc_type : string;
  bc_category : option string;
  bc_message : option string;
  (** [JSON.stringify(data || {})] *)
  bc_data_json : string
}.

Record Tag := { tag_key : string; tag_value : string }.

Record SentryEvent := {
  ev_message : string;
  ev_tags : option (list Tag);
  entries : list EventEntry;
  (** [breadcrumbs?.values] *)
  breadcrumbs_values : option (list Breadcrumb)
}.

(** An element of the comments (notes) listing of an issue. *)
Record SentryComment := {
  comment_type : option string;
  (** [comment.data?.text] *)
  comment_data_text : option string;
  comment_text : option string
}.

Definition IssuesByProject := JS.Map (list SentryIssue).

Record ClickUpConfig := {
  cu_apiToken : string;
  teamId : string;
  customFields : list (string * string);
  cfg_selectedListId : option string;
  completedStatusName : string;
  language : string
}.

Record ClickUpStatus := {
  st_id : string;
  st_status : string;
  st_type : option string
}.

Record ClickUpList := {
  list_id : string;
  list_name : string;
  list_folder : option (string * string);
  list_space : option (string * string);
  list_statuses : option (list ClickUpStatus)
}.

Record ClickUpTask := {
  task_id : string;
  task_name : string;
  task_url : string
}.

(** The task object returned by [GET /task/:id], as [updateTaskStatus]
    reads it. *)
Record TaskListInfo := {
  tl_id : option string;
  tl_statuses : option (list ClickUpStatus)
}.

Record TaskData := {
  td_status : option ClickUpStatus;
  td_statuses : option (list ClickUpStatus);
  td_list : option TaskListInfo
}.

Record Space := { space_id : string; space_name : string }.
Record Folder := { folder_id : string; folder_name : string }.

(** One segment of ClickUp's structured comment format. *)
Record Segment := { seg_text : string; seg_italic : bool }.

(** ** Outbound requests and their settled responses *)

Record IssueQueryParams := {
  statsPeriod : string;
  query : string;
  sort : string;
  limit : Z
}.

Record TaskPayload := {
  tp_name : string;
  tp_description : string;
  tp_tags : list string;
  tp_custom_fields : option (list (string * string))
}.

(** The requests the sources await, indexed by the type of the data a
    successful response carries. *)
Inductive Request : Type -> Type :=
| GetOrganizationIssues (org : string) (params : IssueQueryParams)
  : Request (list SentryIssue)
| GetLatestEvent (issueId : string) : Request SentryEvent
| PutIssue (issueId : string) (status_ : string) : Request unit
| PostIssueComment (issueId : string) (text : string) : Request unit
| GetIssueComments (issueId : string)
  : Request (option (list SentryComment))
| WorkspaceStateUpdate (key : string) (data : IssuesByProject)
  : Request unit
| GetTeamSpaces (team : string) : Request (option (list Space))
| GetSpaceFolders (space : string) : Request (option (list Folder))
| GetFolderLists (folder : string) : Request (option (list ClickUpList))
| GetSpaceLists (space : string) : Request (option (list ClickUpList))
| PostTask (listId : string) (payload : TaskPayload) : Request ClickUpTask
| PostTaskComment (taskId : string) (comment : list Segment) : Request unit
| GetTask (taskId : string) : Request TaskData
| GetList (listId : string) : Request (option (list ClickUpStatus))
| PutTask (taskId : string) (status_ : string) (team : string) : Request unit.

(** What an axios rejection exposes to the handlers in the sources. *)
Record ErrorData := {
  d_message : option string;
  d_ECODE : option string;
  d_err : option string;
  d_json : string
}.

Record AxiosFailure := {
  ax_message : string;
  ax_status : option Z;
  ax_statusText : option string;
  ax_data : option ErrorData
}.

(** Thrown values: a plain [Error] or an axios error (which is an [Error]
    too, and answers [axios.isAxiosError]). *)
Inductive JsError :=
| Error (message : string)
| AxiosError (e : AxiosFailure).

Definition error_message (e : JsError) : string :=
  match e with
  | Error m => m
  | AxiosError a => ax_message a
  end.

Inductive Response (X : Type) : Type :=
| Fulfilled (data : X)
| Rejected (e : JsError).
Arguments Fulfilled {X} data.
Arguments Rejected {X} e.

Inductive Outcome (A : Type) : Type :=
| Returned (a : A)
| Thrown (e : JsError).
Arguments Returned {A} a.
Arguments Thrown {A} e.

(** ** Suspended computations

    [Fin o s]: the function has settled with outcome [o], leaving the shared
    state [s].  [Wait s rq k]: it has run up to an [await] on request [rq],
    leaving the shared state [s]; when the response [r] arrives and the
    shared state is [s'], it goes on as [k r s']. *)

Inductive Susp (S A : Type) : Type :=
| Fin (o : Outcome A) (s : S)
| Wait (s : S) {X : Type} (rq : Request X) (k : Response X -> S -> Susp S A).
Arguments Fin {S A} o s.
Arguments Wait {S A} s {X} rq k.

Definition Async (S A : Type) : Type := S -> Susp S A.

Section Monad.
Context {S : Type}.

(** Sequencing on the outcome: what follows an awaited computation. *)
Fixpoint thenS {A B} (x : Susp S A) (f : Outcome A -> S -> Susp S B)
  : Susp S B :=
  match x with
  | Fin o s => f o s
  | Wait s rq k => Wait s rq (fun r s' => thenS (k r s') f)
  end.

Definition ret {A} (a : A) : Async S A := fun s => Fin (Returned a) s.

Definition throw {A} (e : JsError) : Async S A := fun s => Fin (Thrown e) s.

Definition bind {A B} (m : Async S A) (f : A -> Async S B) : Async S B :=
  fun s => thenS (m s) (fun o s' =>
    match o with
    | Returned a => f a s'
    | Thrown e => Fin (Thrown e) s'
    end).

(** [try { m } catch (e) { h e }] *)
Definition try_catch {A} (m : Async S A) (h : JsError -> Async S A)
  : Async S A :=
  fun s => thenS (m s) (fun o s' =>
    match o with
    | Returned a => Fin (Returned a) s'
    | Thrown e => h e s'
    end).

(** [try { m } finally { f }] for a [finally] block that only assigns. *)
Definition try_finally {A} (m : Async S A) (f : S -> S) : Async S A :=
  fun s => thenS (m s) (fun o s' => Fin o (f s')).

Definition get : Async S S := fun s => Fin (Returned s) s.

Definition gets {A} (f : S -> A) : Async S A := fun s => Fin (Returned (f s)) s.

Definition modify (f : S -> S) : Async S unit :=
  fun s => Fin (Returned tt) (f s).

(** [await] on an outbound request. *)
Definition await {X} (rq : Request X) : Async S X :=
  fun s => Wait s rq (fun r s' =>
    match r with
    | Fulfilled x => Fin (Returned x) s'
    | Rejected e => Fin (Thrown e) s'
    end).

End Monad.

#[global] Instance Async_ret {S} : MRet (Async S) := @ret S.
#[global] Instance Async_bind {S} : MBind (Async S) := fun A B f m => bind m f.

(** [for (const x of l) { body x }] *)
Fixpoint for_of {S A} (l : list A) (body : A -> Async S unit) : Async S unit :=
  match l with
  | [] => ret tt
  | x :: rest => bind (body x) (fun _ => for_of rest body)
  end.

(** ** Running against an upstream

    The upstream answers a request knowing the requests answered before it:
    any deterministic environment. *)

Definition AnyRequest : Type := { X : Type & Request X }.

Definition Upstream : Type :=
  forall X : Type, list AnyRequest -> Request X -> Response X.

Definition headState {S A} (x : Susp S A) : S :=
  match x with
  | Fin _ s => s
  | Wait s _ _ => s
  end.

Definition settled {S A} (x : Susp S A) : bool :=
  match x with
  | Fin _ _ => true
  | Wait _ _ _ => false
  end.

(** One resumption: the pending response arrives and nothing else has
    touched the shared state in between. *)
Definition resume {S A} (up : Upstream) (c : list AnyRequest * Susp S A)
  : list AnyRequest * Susp S A :=
  match c.2 with
  | Fin _ _ => c
  | Wait s rq k => (c.1 ++ [existT _ rq], k (up _ c.1 rq) s)
  end.

(** A call run to completion with no other call interleaved. *)
Fixpoint run {S A} (up : Upstream) (log : list AnyRequest) (x : Susp S A)
  : Outcome A * S * list AnyRequest :=
  match x with
  | Fin o s => (o, s, log)
  | Wait s rq k => run up (log ++ [existT _ rq]) (k (up _ log rq) s)
  end.

(** ** Promise.all on two calls

    Both calls are started one after the other (each runs up to its first
    [await]); then the pending responses arrive in the order the schedule
    gives ([true]: the first call's).  A call is resumed on the shared state
    as the other one left it. *)

Definition reexpose {S A} (x : Susp S A) (cur : S) : Susp S A :=
  match x with
  | Fin o _ => Fin o cur
  | Wait _ rq k => Wait cur rq k
  end.

Fixpoint par {S A B} (sched : list bool) (xa : Susp S A) (xb : Susp S B)
  (cur : S) : Susp S (Outcome A * Outcome B) :=
  match sched with
  | [] =>
      thenS (reexpose xa cur) (fun oa s =>
        thenS (reexpose xb s) (fun ob s' => Fin (Returned (oa, ob)) s'))
  | true :: sched' =>
      match xa with
      | Fin oa _ =>
          thenS (reexpose xb cur) (fun ob s' => Fin (Returned (oa, ob)) s')
      | Wait _ rq k =>
          Wait cur rq (fun r s' =>
            let xa' := k r s' in par sched' xa' xb (headState xa'))
      end
  | false :: sched' =>
      match xb with
      | Fin ob _ =>
          thenS (reexpose xa cur) (fun oa s' => Fin (Returned (oa, ob)) s')
      | Wait _ rq k =>
          Wait cur rq (fun r s' =>
            let xb' := k r s' in par sched' xa xb' (headState xb'))
      end
  end.

(** The combined promise settles once both calls have; it rejects when one
    of them did. *)
Definition promise_all2 {S A B} (sched : list bool)
  (a : Async S A) (b : Async S B) : Async S (A * B) :=
  fun s =>
    let xa := a s in
    let xb := b (headState xa) in
    thenS (par sched xa xb (headState xb)) (fun o s' =>
      match o with
      | Returned (Returned x, Returned y) => Fin (Returned (x, y)) s'
      | Returned (Thrown e, _) => Fin (Thrown e) s'
      | Returned (_, Thrown e) => Fin (Thrown e) s'
      | Thrown e => Fin (Thrown e) s'
      end).

(** ** [sentry/client.ts] *)

Module SentryClient.

Section Client.
Context {S : Type}.

(** [fetchProjectIssues]: the slug is split on the slash, the first two
    parts are the organisation and the project. *)
Definition fetchProjectIssues (projectSlug : string)
  : Async S (list SentryIssue) :=
  let parts := JS.split "/" projectSlug in
  let org := parts !! 0%nat in
  let project := parts !! 1%nat in
  if negb (JS.truthy org) || negb (JS.truthy project) then
    throw (Error ("Invalid project slug format: " +:+ projectSlug +:+
                  ". Expected: 'organization/project'"))
  else
    try_catch
      (await (GetOrganizationIssues (JS.show org)
        {| statsPeriod := "14d";
           query := "project:" +:+ JS.show project +:+ " is:unresolved";
           sort := "date";
           limit := 25 |}))
      (fun error =>
        match error with
        | AxiosError e =>
            throw (Error ("Sentry API error: " +:+
                          JS.show (JS.show_Z <$> ax_status e) +:+ " " +:+
                          JS.show (ax_statusText e)))
        | _ => throw error
        end).

(** The loop of [fetchAllIssues] over the configured slugs, on the map
    built so far. *)
Fixpoint fetchAllIssues_from (slugs : list string)
  (issuesByProject : IssuesByProject) : Async S IssuesByProject :=
  match slugs with
  | [] => ret issuesByProject
  | projectSlug :: rest =>
      m ← try_catch
            (issues ← fetchProjectIssues projectSlug;
             ret (JS.map_set projectSlug issues issuesByProject))
            (fun _ => ret (JS.map_set projectSlug [] issuesByProject));
      fetchAllIssues_from rest m
  end.

Definition fetchAllIssues (config : SentryConfig) : Async S IssuesByProject :=
  fetchAllIssues_from (projectSlugs config) [].

Definition fetchLatestEvent (issueId : string) : Async S (option SentryEvent) :=
  try_catch
    (ev ← await (GetLatestEvent issueId); ret (Some ev))
    (fun _ => ret None).

Definition resolveIssue (issueId : string) : Async S bool :=
  try_catch
    (_ ← await (PutIssue issueId "resolvedInNextRelease"); ret true)
    (fun error =>
      match error with
      | AxiosError e =>
          throw (Error ("Sentry API error: " +:+
                        JS.show (JS.show_Z <$> ax_status e) +:+ " " +:+
                        JS.show (ax_statusText e)))
      | _ => throw error
      end).

Definition addIssueComment (issueId text : string) : Async S bool :=
  try_catch
    (_ ← await (PostIssueComment issueId text); ret true)
    (fun error =>
      match error with
      | AxiosError e =>
          throw (Error ("Sentry API error: " +:+
                        JS.show (JS.show_Z <$> ax_status e) +:+ " " +:+
                        JS.show (ax_statusText e)))
      | _ => throw error
      end).

Definition getIssueComments (issueId : string)
  : Async S (list SentryComment) :=
  try_catch
    (data ← await (GetIssueComments issueId); ret (default [] data))
    (fun _ => ret []).

End Client.

(** The pattern [/https:\/\/app\.clickup\.com\/t\/[\w-]+/]. *)

Definition clickUpUrlPrefix : string := "https://app.clickup.com/t/".

(** [\w]: letters, digits and the underscore. *)
Definition is_word_char (c : ascii) : bool :=
  let n := nat_of_ascii c in
  (Nat.leb 48 n && Nat.leb n 57) || (Nat.leb 65 n && Nat.leb n 90) ||
  (Nat.leb 97 n && Nat.leb n 122) || Nat.eqb n 95.

(** [[\w-]] *)
Definition in_class (c : ascii) : bool := is_word_char c || Nat.eqb (nat_of_ascii c) 45.

(** The remainder of [s] after the literal [p], when [s] starts with it. *)
Fixpoint strip_prefix (p s : string) : option string :=
  match p with
  | EmptyString => Some s
  | String c p' =>
      match s with
      | EmptyString => None
      | String d s' => if Ascii.eqb c d then strip_prefix p' s' else None
      end
  end.

(** [[\w-]+] is greedy and ends the pattern: it takes the longest run. *)
Fixpoint take_class (s : string) : string :=
  match s with
  | EmptyString => EmptyString
  | String c s' => if in_class c then String c (take_class s') else EmptyString
  end.

(** An attempt of the pattern at the start of [s]. *)
Definition match_here (s : string) : option string :=
  match strip_prefix clickUpUrlPrefix s with
  | Some rest =>
      match take_class rest with
      | EmptyString => None
      | w => Some (clickUpUrlPrefix +:+ w)
      end
  | None => None
  end.

(** [text.match(pattern)]: the attempt is made at each position from the
    left; the result is element 0 of the first match. *)
Fixpoint regex_match (text : string) : option string :=
  match match_here text with
  | Some u => Some u
  | None =>
      match text with
      | EmptyString => None
      | String _ text' => regex_match text'
      end
  end.

(** [comment.data?.text || comment.text || ""] *)
Definition comment_body (comment : SentryComment) : string :=
  JS.or_default (JS.or (comment_data_text comment) (comment_text comment)) "".

(** The loop over the comments, which returns at the first match. *)
Fixpoint scan_comments (comments : list SentryComment) : option string :=
  match comments with
  | [] => None
  | comment :: rest =>
      match regex_match (comment_body comment) with
      | Some u => Some u
      | None => scan_comments rest
      end
  end.

Definition parseClickUpUrlFromComments {S} (issueId : string)
  : Async S (option string) :=
  try_catch
    (comments ← getIssueComments issueId; ret (scan_comments comments))
    (fun _ => ret None).

End SentryClient.

(** ** Functions of the host the sources call and this development does not
    look into: date formatting in the process locale, JSON serialisation of
    the diagnostics object, and the markdown converter. *)

Record Diagnostics := {
  requestedStatus : string;
  diag_availableStatuses : list (string * string);
  taskHasStatuses : bool;
  taskHasListStatuses : bool;
  statusSource : string
}.

Record Host := {
  toLocaleString : string -> string;
  toLocaleTimeString : string -> string;
  stringify_diagnostics : Diagnostics -> string;
  simpleMarkdownToClickUp : string -> list Segment
}.

(** ** [clickup/client.ts] *)

Module ClickUpClient.

Section Client.
Context {S : Type} (host : Host).

(** The handler shared by [getLists] and [createTask]. *)
Definition rethrow_api_error {A} (error : JsError) : Async S A :=
  match error with
  | AxiosError e =>
      throw (Error ("ClickUp API error: " +:+
                    JS.show (JS.show_Z <$> ax_status e) +:+ " " +:+
                    JS.show (ax_statusText e)))
  | _ => throw error
  end.

Definition with_folder (folder : Folder) (space : Space) (l : ClickUpList)
  : ClickUpList :=
  {| list_id := list_id l; list_name := list_name l;
     list_folder := Some (folder_id folder, folder_name folder);
     list_space := Some (space_id space, space_name space);
     list_statuses := list_statuses l |}.

Definition with_space (space : Space) (l : ClickUpList) : ClickUpList :=
  {| list_id := list_id l; list_name := list_name l;
     list_folder := list_folder l;
     list_space := Some (space_id space, space_name space);
     list_statuses := list_statuses l |}.

Fixpoint getLists_folders (space : Space) (folders : list Folder)
  (lists : list ClickUpList) : Async S (list ClickUpList) :=
  match folders with
  | [] => ret lists
  | folder :: rest =>
      data ← await (GetFolderLists (folder_id folder));
      getLists_folders space rest
        (lists ++ (with_folder folder space <$> default [] data))
  end.

Fixpoint getLists_spaces (spaces : list Space) (lists : list ClickUpList)
  : Async S (list ClickUpList) :=
  match spaces with
  | [] => ret lists
  | space :: rest =>
      folders ← await (GetSpaceFolders (space_id space));
      lists1 ← getLists_folders space (default [] folders) lists;
      data ← await (GetSpaceLists (space_id space));
      getLists_spaces rest (lists1 ++ (with_space space <$> default [] data))
  end.

Definition getLists (team : string) : Async S (list ClickUpList) :=
  try_catch
    (spaces ← await (GetTeamSpaces team);
     getLists_spaces (default [] spaces) [])
    rethrow_api_error.

Definition createTask (config : ClickUpConfig)
  (listId taskName description : string) (tags : list string)
  : Async S ClickUpTask :=
  try_catch
    (await (PostTask listId
      {| tp_name := taskName;
         tp_description := description;
         tp_tags := tags;
         tp_custom_fields :=
           match customFields config with
           | [] => None
           | fields => Some fields
           end |}))
    rethrow_api_error.

Definition addComment (taskId comment : string) : Async S unit :=
  try_catch
    (await (PostTaskComment taskId
      (simpleMarkdownToClickUp host comment ++
       [ {| seg_text := JS.nl +:+ JS.nl; seg_italic := false |};
         {| seg_text := "---" +:+ JS.nl; seg_italic := false |};
         {| seg_text := "Automatically generated by AI";
            seg_italic := true |} ])))
    (fun error =>
      match error with
      | AxiosError e =>
          throw (Error ("ClickUp API error: " +:+
                        JS.show (JS.show_Z <$> ax_status e) +:+ " " +:+
                        JS.show (ax_statusText e) +:+ ". Error: " +:+
                        JS.show (d_json <$> ax_data e)))
      | _ => throw error
      end).

(** A non-empty array of statuses, if any: [x && x.length > 0]. *)
Definition non_empty (o : option (list ClickUpStatus))
  : option (list ClickUpStatus) :=
  match o with
  | Some (s :: rest) => Some (s :: rest)
  | _ => None
  end.

(** The sources of the status vocabulary, tried in order. *)
Definition resolveStatuses (task : TaskData) : Async S (list ClickUpStatus) :=
  match non_empty (td_list task ≫= tl_statuses) with
  | Some statuses => ret statuses
  | None =>
      match non_empty (td_statuses task) with
      | Some statuses => ret statuses
      | None =>
          match td_list task ≫= tl_id with
          | Some listId =>
              if JS.truthy (Some listId) then
                try_catch
                  (data ← await (GetList listId); ret (default [] data))
                  (fun _ => ret [])
              else ret []
          | None => ret []
          end
      end
  end.

(** Last resort: the current status of the task alone. *)
Definition lastResort (task : TaskData) (availableStatuses : list ClickUpStatus)
  : list ClickUpStatus :=
  match availableStatuses, td_status task with
  | [], Some current => [current]
  | _, _ => availableStatuses
  end.

Definition status_matches (statusName : string) (s : ClickUpStatus) : bool :=
  String.eqb (JS.toLowerCase (st_status s)) (JS.toLowerCase statusName).

Definition diagnostics (task : TaskData) (statusName : string)
  (availableStatuses : list ClickUpStatus) : Diagnostics :=
  {| requestedStatus := statusName;
     diag_availableStatuses :=
       (fun s => (st_status s, st_id s)) <$> availableStatuses;
     taskHasStatuses := bool_decide (is_Some (td_statuses task));
     taskHasListStatuses :=
       bool_decide (is_Some (td_list task ≫= tl_statuses));
     statusSource :=
       if bool_decide (is_Some (td_list task ≫= tl_statuses))
       then "task.list.statuses"
       else if bool_decide (is_Some (td_statuses task))
       then "task.statuses"
       else "fallback/unknown" |}.

Definition status_not_found (task : TaskData) (statusName : string)
  (availableStatuses : list ClickUpStatus) : string :=
  "Status " +:+ JS.dquote +:+ statusName +:+ JS.dquote +:+
  " not found. Available statuses: " +:+
  JS.or_default (Some (JS.join ", " (st_status <$> availableStatuses)))
    "none found" +:+
  ". Diagnostics: " +:+
  stringify_diagnostics host (diagnostics task statusName availableStatuses).

(** [updateTaskStatus(taskId, statusName = this.config.completedStatusName)] *)
Definition updateTaskStatus (config : ClickUpConfig) (taskId : string)
  (statusName_ : option string) : Async S unit :=
  let statusName := default (completedStatusName config) statusName_ in
  try_catch
    (task ← await (GetTask taskId);
     fetched ← resolveStatuses task;
     let availableStatuses := lastResort task fetched in
     match JS.find (status_matches statusName) availableStatuses with
     | None =>
         throw (Error (status_not_found task statusName availableStatuses))
     | Some _ => await (PutTask taskId statusName (teamId config))
     end)
    (fun error =>
      match error with
      | AxiosError e =>
          throw (Error ("ClickUp API error: " +:+
            JS.show (JS.show_Z <$> ax_status e) +:+ " " +:+
            JS.show (JS.or (ax_data e ≫= d_message) (ax_statusText e)) +:+
            ". Error code: " +:+
            JS.show (JS.or (ax_data e ≫= d_ECODE) (ax_data e ≫= d_err)) +:+
            ". Details: " +:+ JS.show (d_json <$> ax_data e)))
      | _ => throw error
      end).

End Client.

End ClickUpClient.

(** ** [stores/sentryStore.ts]: the zustand store of issues

    The store is a global object; its operations are written over any state
    that holds it. *)

Module SentryStore.

Record State := {
  issuesByProject : IssuesByProject;
  isLoading : bool;
  error : option string
}.

Definition initial : State :=
  {| issuesByProject := []; isLoading := false; error := None |}.

Section Ops.
Context {W : Type} (getS : W -> State) (setS : State -> W -> W).

(** zustand's [set]. *)
Definition set (f : State -> State) : Async W unit :=
  modify (fun w => setS (f (getS w)) w).

Definition refresh (client : option SentryConfig) : Async W unit :=
  match client with
  | None =>
      set (fun _ =>
        {| issuesByProject := []; isLoading := false; error := None |})
  | Some config =>
      _ ← set (fun st =>
        {| issuesByProject := issuesByProject st;
           isLoading := true; error := None |});
      try_catch
        (fetched ← SentryClient.fetchAllIssues config;
         set (fun _ =>
           {| issuesByProject := fetched;
              isLoading := false; error := None |}))
        (fun e =>
          set (fun st =>
            {| issuesByProject := issuesByProject st;
               isLoading := false; error := Some (error_message e) |}))
  end.

Definition updateIssues (m : IssuesByProject) : Async W unit :=
  set (fun st =>
    {| issuesByProject := m; isLoading := isLoading st; error := error st |}).

End Ops.

End SentryStore.

(** ** [stores/clickupStore.ts]: the zustand store of lists and task links *)

Module ClickUpStore.

Record State := {
  lists : list ClickUpList;
  selectedListId : option string;
  isEnabled : bool;
  isLoading : bool;
  error : option string;
  (** Sentry issue id to ClickUp task URL *)
  issueTaskMap : gmap string string
}.

Definition initial : State :=
  {| lists := []; selectedListId := None; isEnabled := false;
     isLoading := false; error := None; issueTaskMap := ∅ |}.

Section Ops.
Context {W : Type} (getS : W -> State) (setS : State -> W -> W).

Definition set (f : State -> State) : Async W unit :=
  modify (fun w => setS (f (getS w)) w).

Definition refresh (client config : option ClickUpConfig) : Async W unit :=
  match client, config with
  | Some _, Some cfg =>
      _ ← set (fun st =>
        {| lists := lists st; selectedListId := selectedListId st;
           isEnabled := true; isLoading := true; error := None;
           issueTaskMap := issueTaskMap st |});
      try_catch
        (fetched ← ClickUpClient.getLists (teamId cfg);
         set (fun st =>
           {| lists := fetched;
              selectedListId :=
                JS.or (JS.or (cfg_selectedListId cfg) (list_id <$> head fetched))
                  None;
              isEnabled := isEnabled st; isLoading := false; error := None;
              issueTaskMap := issueTaskMap st |}))
        (fun e =>
          set (fun st =>
            {| lists := lists st; selectedListId := selectedListId st;
               isEnabled := isEnabled st; isLoading := false;
               error := Some (error_message e);
               issueTaskMap := issueTaskMap st |}))
  | _, _ =>
      set (fun st =>
        {| lists := [];
           selectedListId := JS.or (config ≫= cfg_selectedListId) None;
           isEnabled := false; isLoading := false; error := None;
           issueTaskMap := issueTaskMap st |})
  end.

Definition selectList (listId : option string) : Async W unit :=
  set (fun st =>
    {| lists := lists st; selectedListId := listId;
       isEnabled := isEnabled st; isLoading := isLoading st;
       error := error st; issueTaskMap := issueTaskMap st |}).

(** [setTaskMapping]: a copy of the map with the entry set. *)
Definition setTaskMapping (issueId taskUrl : string) : Async W unit :=
  set (fun st =>
    {| lists := lists st; selectedListId := selectedListId st;
       isEnabled := isEnabled st; isLoading := isLoading st;
       error := error st;
       issueTaskMap := <[issueId := taskUrl]> (issueTaskMap st) |}).

Definition createTask (client : ClickUpConfig)
  (listId issueId issueTitle issueUrl : string) : Async W (string * string) :=
  task ← ClickUpClient.createTask client listId
            ("Sentry: " +:+ issueTitle) ("Sentry Issue: " +:+ issueUrl)
            ["Sentry AutoFix"];
  _ ← setTaskMapping issueId (task_url task);
  ret (task_id task, task_url task).

End Ops.

End ClickUpStore.

(** ** [stores/storeManager.ts] *)

Module StoreManager.

(** What a listener of [onDidChange] reads from the stores when it is
    notified. *)
Record Snapshot := {
  seen_issues : IssuesByProject;
  seen_tasks : gmap string string
}.

(** The manager's fields, the two global stores and the notifications fired
    so far.  A client is identified by the configuration it holds. *)
Record World := {
  sentryClient : option SentryConfig;
  clickUpClient : option ClickUpConfig;
  sentryConfig : option SentryConfig;
  clickUpConfig : option ClickUpConfig;
  sentryStore : SentryStore.State;
  clickUpStore : ClickUpStore.State;
  fired : list Snapshot
}.

Definition new : World :=
  {| sentryClient := None; clickUpClient := None;
     sentryConfig := None; clickUpConfig := None;
     sentryStore := SentryStore.initial;
     clickUpStore := ClickUpStore.initial;
     fired := [] |}.

Definition set_sentryStore (st : SentryStore.State) (w : World) : World :=
  {| sentryClient := sentryClient w; clickUpClient := clickUpClient w;
     sentryConfig := sentryConfig w; clickUpConfig := clickUpConfig w;
     sentryStore := st; clickUpStore := clickUpStore w; fired := fired w |}.

Definition set_clickUpStore (st : ClickUpStore.State) (w : World) : World :=
  {| sentryClient := sentryClient w; clickUpClient := clickUpClient w;
     sentryConfig := sentryConfig w; clickUpConfig := clickUpConfig w;
     sentryStore := sentryStore w; clickUpStore := st; fired := fired w |}.

Definition set_clients (sc : option SentryConfig) (cc : option ClickUpConfig)
  (w : World) : World :=
  {| sentryClient := sc; clickUpClient := cc;
     sentryConfig := sentryConfig w; clickUpConfig := clickUpConfig w;
     sentryStore := sentryStore w; clickUpStore := clickUpStore w;
     fired := fired w |}.

Definition set_configs (sc : option SentryConfig) (cc : option ClickUpConfig)
  (w : World) : World :=
  {| sentryClient := sentryClient w; clickUpClient := clickUpClient w;
     sentryConfig := sc; clickUpConfig := cc;
     sentryStore := sentryStore w; clickUpStore := clickUpStore w;
     fired := fired w |}.

Definition snapshot (w : World) : Snapshot :=
  {| seen_issues := SentryStore.issuesByProject (sentryStore w);
     seen_tasks := ClickUpStore.issueTaskMap (clickUpStore w) |}.

(** [this.emitter.fire()] *)
Definition fire : Async World unit :=
  modify (fun w =>
    {| sentryClient := sentryClient w; clickUpClient := clickUpClient w;
       sentryConfig := sentryConfig w; clickUpConfig := clickUpConfig w;
       sentryStore := sentryStore w; clickUpStore := clickUpStore w;
       fired := fired w ++ [snapshot w] |}).

Definition useSentryStore_refresh :=
  SentryStore.refresh sentryStore set_sentryStore.
Definition useSentryStore_updateIssues :=
  SentryStore.updateIssues sentryStore set_sentryStore.
Definition useClickUpStore_refresh :=
  ClickUpStore.refresh clickUpStore set_clickUpStore.
Definition useClickUpStore_setTaskMapping :=
  ClickUpStore.setTaskMapping clickUpStore set_clickUpStore.
Definition useClickUpStore_createTask :=
  ClickUpStore.createTask clickUpStore set_clickUpStore.

(** The body of the correlation loop for one issue. *)
Definition correlate_issue (issue : SentryIssue) : Async World unit :=
  try_catch
    (clickUpUrl ← SentryClient.parseClickUpUrlFromComments (id issue);
     if JS.truthy clickUpUrl
     then useClickUpStore_setTaskMapping (id issue) (JS.show clickUpUrl)
     else ret tt)
    (fun _ => ret tt).

(** The correlation loop: every issue of every project, in map order. *)
Definition correlate (issuesByProject : IssuesByProject) : Async World unit :=
  for_of issuesByProject (fun entry => for_of entry.2 correlate_issue).

Definition refreshSentry : Async World unit :=
  client ← gets sentryClient;
  match client with
  | None => useSentryStore_updateIssues []
  | Some config =>
      _ ← useSentryStore_refresh (Some config);
      issuesByProject ← gets (fun w =>
        SentryStore.issuesByProject (sentryStore w));
      _ ← correlate issuesByProject;
      fire
  end.

Definition refreshClickUp : Async World unit :=
  client ← gets clickUpClient;
  config ← gets clickUpConfig;
  match client, config with
  | Some c, Some cfg =>
      _ ← useClickUpStore_refresh (Some c) (Some cfg);
      fire
  | _, _ => ret tt
  end.

(** [refreshAll]: both refreshes under [Promise.all], then one more
    notification.  The schedule is the order in which their responses
    arrive. *)
Definition refreshAll (sched : list bool) : Async World unit :=
  _ ← promise_all2 sched refreshSentry refreshClickUp;
  fire.

Definition initialize (sentryCfg : SentryConfig)
  (clickUpCfg : option ClickUpConfig) : Async World unit :=
  _ ← modify (set_configs (Some sentryCfg) clickUpCfg);
  _ ← modify (fun w =>
         set_clients (Some sentryCfg)
           (match clickUpCfg with
            | Some c => Some c
            | None => clickUpClient w
            end) w);
  _ ← refreshSentry;
  _ ← refreshClickUp;
  fire.

Definition updateConfig (sched : list bool) (sentryCfg : SentryConfig)
  (clickUpCfg : option ClickUpConfig) : Async World unit :=
  _ ← modify (set_configs (Some sentryCfg) clickUpCfg);
  _ ← modify (set_clients (Some sentryCfg) clickUpCfg);
  refreshAll sched.

Definition createClickUpTask (issueId issueTitle issueUrl : string)
  : Async World (string * string) :=
  client ← gets clickUpClient;
  config ← gets clickUpConfig;
  match client, config with
  | Some c, Some _ =>
      selected ← gets (fun w => ClickUpStore.selectedListId (clickUpStore w));
      if JS.truthy selected then
        created ← useClickUpStore_createTask c (JS.show selected)
                     issueId issueTitle issueUrl;
        _ ← useClickUpStore_setTaskMapping issueId created.2;
        ret created
      else throw (Error "No ClickUp list selected")
  | _, _ => throw (Error "ClickUp is not configured")
  end.

Definition getClickUpTaskUrl (issueId : string) (w : World) : option string :=
  ClickUpStore.issueTaskMap (clickUpStore w) !! issueId.

Definition getSentryIssues (w : World) : IssuesByProject :=
  SentryStore.issuesByProject (sentryStore w).

End StoreManager.

(** ** The earlier [IssueStore] (an issues store with an in-flight flag) *)

Module IssueStore.

Record State := {
  issuesByProject : IssuesByProject;
  sentryClient : option SentryConfig;
  isRefreshing : bool;
  (** payloads of [emitter.fire] *)
  fired : list IssuesByProject
}.

Definition set_issues (m : IssuesByProject) (st : State) : State :=
  {| issuesByProject := m; sentryClient := sentryClient st;
     isRefreshing := isRefreshing st; fired := fired st |}.

Definition set_refreshing (b : bool) (st : State) : State :=
  {| issuesByProject := issuesByProject st; sentryClient := sentryClient st;
     isRefreshing := b; fired := fired st |}.

Definition fire : Async State unit :=
  modify (fun st =>
    {| issuesByProject := issuesByProject st;
       sentryClient := sentryClient st;
       isRefreshing := isRefreshing st;
       fired := fired st ++ [issuesByProject st] |}).

(** [saveToCache]: the snapshot goes to the workspace state; a failure is
    swallowed. *)
Definition saveToCache : Async State unit :=
  try_catch
    (m ← gets issuesByProject;
     await (WorkspaceStateUpdate "sentryIssues" m))
    (fun _ => ret tt).

Definition refresh : Async State IssuesByProject :=
  client ← gets sentryClient;
  match client with
  | None =>
      _ ← modify (set_issues []);
      _ ← fire;
      gets issuesByProject
  | Some config =>
      refreshing ← gets isRefreshing;
      match refreshing with
      | true => gets issuesByProject
      | false =>
          try_finally
            (_ ← modify (set_refreshing true);
             result ← SentryClient.fetchAllIssues config;
             _ ← modify (set_issues result);
             _ ← saveToCache;
             _ ← fire;
             gets issuesByProject)
            (set_refreshing false)
      end
  end.

End IssueStore.

(** ** [mcp/server.ts]: the tool server *)

Module SentryMCPServer.

(** The server's fields.  [storeManager] is the shared manager the server
    was given a reference to, if any, as it is when a tool is called. *)
Record State := {
  sentryClient : SentryConfig;
  clickUpClient : option ClickUpConfig;
  clickUpConfig : option ClickUpConfig;
  storeManager : option StoreManager.World
}.

Definition set_clickUpClient (c : option ClickUpConfig) (st : State) : State :=
  {| sentryClient := sentryClient st; clickUpClient := c;
     clickUpConfig := clickUpConfig st; storeManager := storeManager st |}.

(** [storeManager?.getClickUpConfig()] *)
Definition getClickUpConfig (sm : option StoreManager.World)
  : option ClickUpConfig :=
  sm ≫= StoreManager.clickUpConfig.

(** The board configuration read from the process environment. *)
Definition configFromEnv (parse_fields : string -> list (string * string))
  (env : gmap string string) : option ClickUpConfig :=
  if JS.truthy (env !! "CLICKUP_API_TOKEN") &&
     JS.truthy (env !! "CLICKUP_TEAM_ID")
  then Some
    {| cu_apiToken := JS.show (env !! "CLICKUP_API_TOKEN");
       teamId := JS.show (env !! "CLICKUP_TEAM_ID");
       customFields :=
         if JS.truthy (env !! "CLICKUP_CUSTOM_FIELDS")
         then parse_fields (JS.show (env !! "CLICKUP_CUSTOM_FIELDS"))
         else [];
       cfg_selectedListId := env !! "CLICKUP_SELECTED_LIST";
       completedStatusName :=
         JS.or_default (env !! "CLICKUP_COMPLETED_STATUS") "complete";
       language := JS.or_default (env !! "CLICKUP_LANGUAGE") "English" |}
  else None.

(** The constructor: the board configuration comes from the manager, or
    else from the environment. *)
Definition constructor (parse_fields : string -> list (string * string))
  (env : gmap string string) (config : SentryConfig)
  (sm : option StoreManager.World) : State :=
  match getClickUpConfig sm with
  | Some cfg =>
      {| sentryClient := config; clickUpClient := Some cfg;
         clickUpConfig := Some cfg; storeManager := sm |}
  | None =>
      let fromEnv := configFromEnv parse_fields env in
      {| sentryClient := config; clickUpClient := fromEnv;
         clickUpConfig := fromEnv; storeManager := sm |}
  end.

(** [updateConfig(config, storeManager?)]: an omitted second argument
    ([None]) leaves the reference as it is. *)
Definition updateConfig (config : SentryConfig)
  (sm : option (option StoreManager.World)) (st : State) : State :=
  let manager := default (storeManager st) sm in
  let cfg :=
    match getClickUpConfig manager with
    | Some c => Some c
    | None => clickUpConfig st
    end in
  {| sentryClient := config;
     clickUpClient := cfg;
     clickUpConfig := clickUpConfig st;
     storeManager := manager |}.

(** The argument object of a tool call. *)
Record Args := {
  search : option string;
  project : option string;
  limit_ : option Z;
  issueId : option string;
  taskId : option string;
  comment : option string;
  statusName : option string
}.

(** A tool result: one text item, and the error flag. *)
Record ToolResult := {
  text : string;
  isError : bool
}.

Definition success (t : string) : ToolResult :=
  {| text := t; isError := false |}.

Section Tools.
Context (host : Host).

(** *** [searchIssues] *)

Definition matches (searchTerm : string) (issue : SentryIssue) : bool :=
  negb (JS.truthy (Some searchTerm)) ||
  JS.includes (JS.toLowerCase (title issue)) searchTerm ||
  JS.includes (JS.toLowerCase (shortId issue)) searchTerm ||
  match culprit issue with
  | Some c => JS.includes (JS.toLowerCase c) searchTerm
  | None => false
  end.

(** The two nested loops that collect the matching issues. *)
Fixpoint collect (projectFilter : option string) (searchTerm : string)
  (entries : IssuesByProject) (allIssues : list (string * SentryIssue))
  : list (string * SentryIssue) :=
  match entries with
  | [] => allIssues
  | (project, issues) :: rest =>
      if JS.truthy projectFilter &&
         negb (String.eqb project (JS.show projectFilter))
      then collect projectFilter searchTerm rest allIssues
      else collect projectFilter searchTerm rest
             (allIssues ++
              ((fun issue => (project, issue)) <$>
               filter (fun issue => matches searchTerm issue = true) issues))
  end.

Definition render_entry (e : string * SentryIssue) : string :=
  let '(project, issue) := e in
  "**" +:+ shortId issue +:+ "** (" +:+ project +:+ ")" +:+ JS.nl +:+
  "Title: " +:+ title issue +:+ JS.nl +:+
  "Level: " +:+ level_to_string (level issue) +:+ JS.nl +:+
  "Events: " +:+ count issue +:+ " (" +:+ JS.show_Z (userCount issue) +:+
  " users affected)" +:+ JS.nl +:+
  "Last seen: " +:+ toLocaleString host (lastSeen issue) +:+ JS.nl +:+
  "Culprit: " +:+ JS.or_default (culprit issue) "N/A" +:+ JS.nl +:+
  "Link: " +:+ permalink issue +:+ JS.nl +:+
  "Issue ID: " +:+ id issue +:+ JS.nl.

(** [args.limit || 25]: zero is falsy. *)
Definition effective_limit (l : option Z) : Z :=
  match l with
  | Some 0%Z => 25
  | Some n => n
  | None => 25
  end.

(** The entries a search returns, given the fetched map. *)
Definition search_results (args : Args) (issuesByProject : IssuesByProject)
  : list (string * SentryIssue) :=
  let searchTerm := JS.or_default (JS.toLowerCase <$> search args) "" in
  JS.slice0 (collect (project args) searchTerm issuesByProject [])
    (effective_limit (limit_ args)).

Definition searchIssues (args : Args) : Async State ToolResult :=
  config ← gets sentryClient;
  issuesByProject ← SentryClient.fetchAllIssues config;
  let response :=
    JS.join (JS.nl +:+ "---" +:+ JS.nl +:+ JS.nl)
      (render_entry <$> search_results args issuesByProject) in
  ret (success (JS.or_default (Some response)
    "No issues found matching your criteria. All issues may be resolved!")).

(** *** Looking an identifier up in the fetched map *)

Definition is_issue (issueId : string) (i : SentryIssue) : bool :=
  String.eqb (id i) issueId || String.eqb (shortId i) issueId.

Fixpoint find_issue (issueId : string) (entries : IssuesByProject)
  : option (string * SentryIssue) :=
  match entries with
  | [] => None
  | (project, issues) :: rest =>
      match JS.find (is_issue issueId) issues with
      | Some issue => Some (project, issue)
      | None => find_issue issueId rest
      end
  end.

(** *** [getIssueDetails] *)

Definition render_frame (frame : StackFrame) : string :=
  "  at " +:+ JS.or_default (function frame) "<anonymous>" +:+ " (" +:+
  JS.or_default (JS.or (filename frame) (absPath frame)) "unknown" +:+ ":" +:+
  match lineNo frame with
  | Some 0%Z | None => "?"
  | Some n => JS.show_Z n
  end +:+ ")" +:+ JS.nl.

(** The inner loop: [for (const frame of frames.slice().reverse())],
    appending to [details]. *)
Definition append_frames (details : string) (frames : list StackFrame)
  : string :=
  foldl (fun acc frame => acc +:+ render_frame frame) details (reverse frames).

(** The outer loop: [for (const exception of values.reverse())]. *)
Definition append_exceptions (details : string) (values : list ExceptionValue)
  : string :=
  foldl
    (fun acc exception =>
      let acc1 :=
        acc +:+ ex_type exception +:+ ": " +:+ ex_value exception +:+ JS.nl in
      match stacktrace_frames exception with
      | Some frames => append_frames acc1 frames
      | None => acc1
      end)
    details (reverse values).

Definition append_stack_trace (details : string) (event : SentryEvent)
  : string :=
  match
    JS.find (fun entry => String.eqb (entry_type entry) "exception")
      (entries event) ≫= entry_values
  with
  | Some values =>
      append_exceptions
        (details +:+ "## Stack Trace" +:+ JS.nl +:+ JS.nl +:+ "```" +:+ JS.nl)
        values
      +:+ "```" +:+ JS.nl +:+ JS.nl
  | None => details
  end.

Definition render_breadcrumb (b : Breadcrumb) : string :=
  "- [" +:+ toLocaleTimeString host (bc_timestamp b) +:+ "] " +:+
  JS.or_default (bc_category b) (bc_type b) +:+ ": " +:+
  JS.or_default (bc_message b) (bc_data_json b) +:+ JS.nl.

Definition append_breadcrumbs (details : string) (event : SentryEvent)
  : string :=
  match breadcrumbs_values event with
  | Some (b :: bs) =>
      foldl (fun acc x => acc +:+ render_breadcrumb x)
        (details +:+ "## User Actions (Breadcrumbs)" +:+ JS.nl +:+ JS.nl)
        (JS.slice_last 10 (b :: bs))
      +:+ JS.nl
  | _ => details
  end.

Definition relevant_tag (t : Tag) : bool :=
  bool_decide (tag_key t ∈
    ["environment"; "release"; "browser"; "os"; "level"; "runtime"; "url"]).

Definition append_tags (details : string) (event : SentryEvent) : string :=
  match ev_tags event with
  | Some (t :: ts) =>
      foldl
        (fun acc tag =>
          acc +:+ "- **" +:+ tag_key tag +:+ ":** " +:+ tag_value tag +:+ JS.nl)
        (details +:+ "## Tags" +:+ JS.nl +:+ JS.nl)
        (take 10 (filter (fun tag => relevant_tag tag = true) (t :: ts)))
  | _ => details
  end.

Definition render_header (foundProject : string) (foundIssue : SentryIssue)
  : string :=
  "# " +:+ shortId foundIssue +:+ ": " +:+ title foundIssue +:+ JS.nl +:+ JS.nl +:+
  "**Project:** " +:+ foundProject +:+ JS.nl +:+
  "**Level:** " +:+ level_to_string (level foundIssue) +:+ JS.nl +:+
  "**Status:** " +:+ status foundIssue +:+ JS.nl +:+
  "**Events:** " +:+ count foundIssue +:+ " (" +:+
  JS.show_Z (userCount foundIssue) +:+ " users affected)" +:+ JS.nl +:+
  "**First Seen:** " +:+ toLocaleString host (firstSeen foundIssue) +:+ JS.nl +:+
  "**Last Seen:** " +:+ toLocaleString host (lastSeen foundIssue) +:+ JS.nl +:+
  "**Link:** " +:+ permalink foundIssue +:+ JS.nl +:+ JS.nl +:+
  (if JS.truthy (culprit foundIssue)
   then "**Culprit:** " +:+ JS.show (culprit foundIssue) +:+ JS.nl +:+ JS.nl
   else "").

Definition render_event (details : string) (foundIssue : SentryIssue)
  (event : SentryEvent) : string :=
  let d1 :=
    details +:+ "## Error Message" +:+ JS.nl +:+ JS.nl +:+
    JS.or_default (metadata_value foundIssue) (ev_message event) +:+
    JS.nl +:+ JS.nl in
  append_tags (append_breadcrumbs (append_stack_trace d1 event) event) event.

Definition render_details (foundProject : string) (foundIssue : SentryIssue)
  (event : option SentryEvent) : string :=
  let d0 := render_header foundProject foundIssue in
  let d1 :=
    match event with
    | Some ev => render_event d0 foundIssue ev
    | None => d0
    end in
  d1 +:+ JS.nl +:+ "**To resolve this issue, use:** `sentry_resolve_issue` with issueId: `" +:+
  id foundIssue +:+ "`" +:+ JS.nl.

Definition getIssueDetails (args : Args) : Async State ToolResult :=
  if negb (JS.truthy (issueId args)) then throw (Error "issueId is required")
  else
    config ← gets sentryClient;
    issuesByProject ← SentryClient.fetchAllIssues config;
    match find_issue (JS.show (issueId args)) issuesByProject with
    | None =>
        throw (Error ("Issue not found: " +:+ JS.show (issueId args)))
    | Some (foundProject, foundIssue) =>
        event ← SentryClient.fetchLatestEvent (id foundIssue);
        ret (success (render_details foundProject foundIssue event))
    end.

(** *** [listProjects] *)

Definition listProjects : Async State ToolResult :=
  config ← gets sentryClient;
  issuesByProject ← SentryClient.fetchAllIssues config;
  let projects :=
    (fun e : string * list SentryIssue =>
      e.1 +:+ " (" +:+ JS.show_Z (Z.of_nat (length e.2)) +:+
      " unresolved issues)") <$> issuesByProject in
  ret (success
    match projects with
    | [] => "No projects configured."
    | _ =>
        "Available projects:" +:+ JS.nl +:+ JS.nl +:+
        JS.join JS.nl ((fun p => "- " +:+ p) <$> projects)
    end).

(** *** [resolveIssue] *)

Definition resolveIssue (args : Args) : Async State ToolResult :=
  if negb (JS.truthy (issueId args)) then throw (Error "issueId is required")
  else
    config ← gets sentryClient;
    issuesByProject ← SentryClient.fetchAllIssues config;
    match find_issue (JS.show (issueId args)) issuesByProject with
    | None =>
        throw (Error ("Issue not found: " +:+ JS.show (issueId args)))
    | Some (_, foundIssue) =>
        _ ← SentryClient.resolveIssue (id foundIssue);
        ret (success ("✅ Issue " +:+ shortId foundIssue +:+
          " has been marked as resolved in next release." +:+ JS.nl +:+ JS.nl +:+
          "The issue will no longer appear in the active issues list."))
    end.

(** *** The two board tools *)

(** Both start by taking the client from the manager when the server has
    none yet. *)
Definition adopt (st : State) : State :=
  match storeManager st with
  | Some sm =>
      match clickUpClient st, StoreManager.clickUpConfig sm with
      | None, Some cfg => set_clickUpClient (Some cfg) st
      | _, _ => st
      end
  | None => st
  end.

Definition adoptClientFromManager : Async State unit := modify adopt.

Definition addClickUpComment (args : Args) : Async State ToolResult :=
  _ ← adoptClientFromManager;
  if negb (JS.truthy (taskId args)) || negb (JS.truthy (comment args))
  then throw (Error "taskId and comment are required")
  else
    client ← gets clickUpClient;
    match client with
    | None => throw (Error "ClickUp is not configured")
    | Some _ =>
        _ ← ClickUpClient.addComment host (JS.show (taskId args))
               (JS.show (comment args));
        ret (success ("✅ Comment added to ClickUp task " +:+
                      JS.show (taskId args)))
    end.

Definition setClickUpStatus (args : Args) : Async State ToolResult :=
  _ ← adoptClientFromManager;
  if negb (JS.truthy (taskId args)) then throw (Error "taskId is required")
  else
    client ← gets clickUpClient;
    match client with
    | None => throw (Error "ClickUp is not configured")
    | Some config =>
        _ ← ClickUpClient.updateTaskStatus host config
               (JS.show (taskId args)) (statusName args);
        ret (success ("✅ ClickUp task " +:+ JS.show (taskId args) +:+
                      " status set to " +:+ JS.dquote +:+
                      JS.or_default (statusName args) "complete" +:+
                      JS.dquote))
    end.

(** *** The [CallToolRequestSchema] handler *)

Definition dispatch (name : string) (args : Args) : Async State ToolResult :=
  if String.eqb name "sentry_search_issues" then searchIssues args
  else if String.eqb name "sentry_get_issue_details" then getIssueDetails args
  else if String.eqb name "sentry_list_projects" then listProjects
  else if String.eqb name "sentry_resolve_issue" then resolveIssue args
  else if String.eqb name "clickup_add_comment" then addClickUpComment args
  else if String.eqb name "clickup_set_status" then setClickUpStatus args
  else throw (Error ("Unknown tool: " +:+ name)).

(** Whatever the tool throws becomes an error result. *)
Definition callTool (name : string) (args : Args) : Async State ToolResult :=
  try_catch (dispatch name args)
    (fun e =>
      ret {| text := "Error: " +:+ error_message e; isError := true |}).

End Tools.

End SentryMCPServer.

(** ** The result of one bulk fetch, as a function of the upstream *)

(** How the fetch of one project settles when it is started after the
    requests [log]. *)
Definition project_outcome (up : Upstream) (log : list AnyRequest)
  (projectSlug : string) : Outcome (list SentryIssue) :=
  (run up log (SentryClient.fetchProjectIssues projectSlug tt)).1.1.

Definition project_log (up : Upstream) (log : list AnyRequest)
  (projectSlug : string) : list AnyRequest :=
  (run up log (SentryClient.fetchProjectIssues projectSlug tt)).2.

(** What [fetchAllIssues] returns, and the requests it has made by then. *)
Definition bulk_fetch (up : Upstream) (log : list AnyRequest)
  (config : SentryConfig) : IssuesByProject * list AnyRequest :=
  let r := run up log (SentryClient.fetchAllIssues config tt) in
  (match r.1.1 with Returned m => m | Thrown _ => [] end, r.2).

(** A failed project fetch leaves an empty entry; a successful one, the
    issues it returned. *)
Definition degrade (o : Outcome (list SentryIssue)) : list SentryIssue :=
  match o with
  | Returned issues => issues
  | Thrown _ => []
  end.

(** What one scan of an issue's comments finds when it is started after the
    requests [log], and the requests made once it is over. *)
Definition scan_result (up : Upstream) (log : list AnyRequest)
  (issueId : string) : option string :=
  match (run up log (SentryClient.parseClickUpUrlFromComments issueId tt)).1.1
  with
  | Returned found => found
  | Thrown _ => None
  end.

Definition scan_log (up : Upstream) (log : list AnyRequest)
  (issueId : string) : list AnyRequest :=
  (run up log (SentryClient.parseClickUpUrlFromComments issueId tt)).2.

(** The state after the loop body for one issue. *)
Definition linked (found : option string) (issueId : string)
  (w : StoreManager.World) : StoreManager.World :=
  if JS.truthy found
  then StoreManager.set_clickUpStore
         {| ClickUpStore.lists := ClickUpStore.lists (StoreManager.clickUpStore w);
            ClickUpStore.selectedListId :=
              ClickUpStore.selectedListId (StoreManager.clickUpStore w);
            ClickUpStore.isEnabled :=
              ClickUpStore.isEnabled (StoreManager.clickUpStore w);
            ClickUpStore.isLoading :=
              ClickUpStore.isLoading (StoreManager.clickUpStore w);
            ClickUpStore.error := ClickUpStore.error (StoreManager.clickUpStore w);
            ClickUpStore.issueTaskMap :=
              <[issueId := JS.show found]>
                (ClickUpStore.issueTaskMap (StoreManager.clickUpStore w)) |}
         w
  else w.

(** The world once the store has taken a fetched map. *)
Definition loaded (m : IssuesByProject) (w : StoreManager.World)
  : StoreManager.World :=
  StoreManager.set_sentryStore
    {| SentryStore.issuesByProject := m;
       SentryStore.isLoading := false;
       SentryStore.error := None |} w.

(** The world once [fire] has run. *)
Definition notified (w : StoreManager.World) : StoreManager.World :=
  {| StoreManager.sentryClient := StoreManager.sentryClient w;
     StoreManager.clickUpClient := StoreManager.clickUpClient w;
     StoreManager.sentryConfig := StoreManager.sentryConfig w;
     StoreManager.clickUpConfig := StoreManager.clickUpConfig w;
     StoreManager.sentryStore := StoreManager.sentryStore w;
     StoreManager.clickUpStore := StoreManager.clickUpStore w;
     StoreManager.fired := StoreManager.fired w ++ [StoreManager.snapshot w] |}.

(** The parts of the world the correlation loop does not write. *)
Definition same_but_links (w w' : StoreManager.World) : Prop :=
  StoreManager.sentryClient w' = StoreManager.sentryClient w ∧
  StoreManager.clickUpClient w' = StoreManager.clickUpClient w ∧
  StoreManager.sentryConfig w' = StoreManager.sentryConfig w ∧
  StoreManager.clickUpConfig w' = StoreManager.clickUpConfig w ∧
  StoreManager.sentryStore w' = StoreManager.sentryStore w ∧
  StoreManager.fired w' = StoreManager.fired w.

(** ** Invariants of a call under interleaving

    [Along P Q x]: [P] holds of the shared state each time the call [x]
    suspends, and [Q] holds when it settles, provided [P] holds each time it
    is resumed (whatever the response, and whatever ran in between). *)
Inductive Along {S A : Type} (P Q : S → Prop) : Susp S A → Prop :=
| Along_Fin (o : Outcome A) (s : S) : Q s → Along P Q (Fin o s)
| Along_Wait (s : S) {X : Type} (rq : Request X)
    (k : Response X → S → Susp S A) :
    P s → (∀ r s', P s' → Along P Q (k r s')) → Along P Q (Wait s rq k).

(** The first call after [n] of its responses have arrived, with nothing
    else run in between. *)
Fixpoint advance {S A} (up : Upstream) (n : nat)
  (c : list AnyRequest * Susp S A) : list AnyRequest * Susp S A :=
  match n with
  | O => c
  | Datatypes.S n' => advance up n' (resume up c)
  end.

(** The request a well-formed project slug gives rise to. *)
Definition slug_request (projectSlug : string) : option AnyRequest :=
  let parts := JS.split "/" projectSlug in
  if negb (JS.truthy (parts !! 0%nat)) || negb (JS.truthy (parts !! 1%nat))
  then None
  else Some (existT _
    (GetOrganizationIssues (JS.show (parts !! 0%nat))
       {| statsPeriod := "14d";
          query := "project:" +:+ JS.show (parts !! 1%nat) +:+ " is:unresolved";
          sort := "date";
          limit := 25 |})).

(** The fetch sequence of a configuration: one request per well-formed
    slug, in the configured order. *)
Definition fetch_sequence (config : SentryConfig) : list AnyRequest :=
  omap slug_request (projectSlugs config).

Definition same_clients (w w' : StoreManager.World) : Prop :=
  StoreManager.sentryClient w' = StoreManager.sentryClient w ∧
  StoreManager.clickUpClient w' = StoreManager.clickUpClient w ∧
  StoreManager.clickUpConfig w' = StoreManager.clickUpConfig w.

(** While a refresh of the [IssueStore] is in flight, the flag is up and the
    client is the one it started with. *)
Definition refreshing_with (config : SentryConfig) (st : IssueStore.State)
  : Prop :=
  IssueStore.isRefreshing st = true ∧
  IssueStore.sentryClient st = Some config.

(** ** A concrete tracker, used to run the code on explicit inputs *)

Definition demo_issue : SentryIssue :=
  {| id := "4001"; title := "TypeError: x is undefined";
     culprit := Some "app/main.js";
     permalink := "https://sentry.io/organizations/acme/issues/4001/";
     shortId := "WEB-1"; level := error; status := "unresolved";
     count := "12"; userCount := 3;
     firstSeen := "2024-01-01T00:00:00Z"; lastSeen := "2024-01-02T00:00:00Z";
     metadata_value := None |}.

Definition demo_config : SentryConfig :=
  {| sentryUrl := "https://sentry.io"; apiToken := "token";
     projectSlugs := ["acme/web"] |}.

(** It serves one issue for the organisation [acme], an empty comment
    thread for every issue, and rejects everything else. *)
Definition demo_upstream : Upstream :=
  fun X log rq =>
    match rq in Request T return Response T with
    | GetOrganizationIssues org _ =>
        if String.eqb org "acme" then Fulfilled [demo_issue]
        else Rejected (Error "Network Error")
    | GetIssueComments _ => Fulfilled (Some [])
    | _ => Rejected (Error "Network Error")
    end.

Definition is_issues_fetch (r : AnyRequest) : bool :=
  match projT2 r with
  | GetOrganizationIssues _ _ => true
  | _ => false
  end.

Definition demo_store : IssueStore.State :=
  {| IssueStore.issuesByProject := [];
     IssueStore.sentryClient := Some demo_config;
     IssueStore.isRefreshing := false;
     IssueStore.fired := [] |}.

(** A manager initialised with the tracker only, whose store holds one
    project from an earlier refresh. *)
Definition demo_world : StoreManager.World :=
  {| StoreManager.sentryClient := Some demo_config;
     StoreManager.clickUpClient := None;
     StoreManager.sentryConfig := Some demo_config;
     StoreManager.clickUpConfig := None;
     StoreManager.sentryStore :=
       {| SentryStore.issuesByProject := [("acme/web", [])];
          SentryStore.isLoading := false;
          SentryStore.error := None |};
     StoreManager.clickUpStore := ClickUpStore.initial;
     StoreManager.fired := [] |}.

(** The same manager before any tracker client was set. *)
Definition demo_world_no_client : StoreManager.World :=
  StoreManager.set_clients None None demo_world.

(** ** The shape of a task URL, stated apart from the matcher *)

Fixpoint all_in_class (s : string) : bool :=
  match s with
  | EmptyString => true
  | String c s' => SentryClient.in_class c && all_in_class s'
  end.

(** The fixed host and path, then one or more word characters or hyphens. *)
Definition url_shaped (u : string) : Prop :=
  ∃ w, u = SentryClient.clickUpUrlPrefix +:+ w ∧ w ≠ "" ∧
       all_in_class w = true.

(** ** A concrete board *)

Definition demo_board_config : ClickUpConfig :=
  {| cu_apiToken := "pk_token"; teamId := "9001"; customFields := [];
     cfg_selectedListId := Some "list-1"; completedStatusName := "complete";
     language := "English" |}.

(** A tracker as [demo_upstream], and a board that creates the task
    [abc123] for every request. *)
Definition demo_board_upstream : Upstream :=
  fun X log rq =>
    match rq in Request T return Response T with
    | PostTask _ payload =>
        Fulfilled {| task_id := "abc123"; task_name := tp_name payload;
                     task_url := "https://app.clickup.com/t/abc123" |}
    | other => demo_upstream _ log other
    end.

Definition demo_board_world : StoreManager.World :=
  {| StoreManager.sentryClient := Some demo_config;
     StoreManager.clickUpClient := Some demo_board_config;
     StoreManager.sentryConfig := Some demo_config;
     StoreManager.clickUpConfig := Some demo_board_config;
     StoreManager.sentryStore :=
       {| SentryStore.issuesByProject := [("acme/web", [demo_issue])];
          SentryStore.isLoading := false;
          SentryStore.error := None |};
     StoreManager.clickUpStore :=
       {| ClickUpStore.lists := []; ClickUpStore.selectedListId := Some "list-1";
          ClickUpStore.isEnabled := true; ClickUpStore.isLoading := false;
          ClickUpStore.error := None; ClickUpStore.issueTaskMap := ∅ |};
     StoreManager.fired := [] |}.

(** ** The stack trace block, as the specification words it

    Exceptions in the reverse of the stored order, and under each the frames
    in the reverse of the upstream order. *)

Definition concat_strings (l : list string) : string :=
  foldr String.append "" l.

Definition frames_block (host : Host) (frames : list StackFrame) : string :=
  concat_strings (SentryMCPServer.render_frame <$> reverse frames).

Definition exception_block (host : Host) (exception : ExceptionValue)
  : string :=
  ex_type exception +:+ ": " +:+ ex_value exception +:+ JS.nl +:+
  match stacktrace_frames exception with
  | Some frames => frames_block host frames
  | None => ""
  end.

Definition stack_trace_block (host : Host) (values : list ExceptionValue)
  : string :=
  "## Stack Trace" +:+ JS.nl +:+ JS.nl +:+ "```" +:+ JS.nl +:+
  concat_strings (exception_block host <$> reverse values) +:+
  "```" +:+ JS.nl +:+ JS.nl.

(** The exception values the detail operation prints for an event. *)
Definition exception_values (event : SentryEvent)
  : option (list ExceptionValue) :=
  JS.find (fun entry => String.eqb (entry_type entry) "exception")
    (entries event) ≫= entry_values.

(** What precedes the stack trace in the detail text. *)
Definition details_preamble (host : Host) (foundProject : string)
  (foundIssue : SentryIssue) (event : SentryEvent) : string :=
  SentryMCPServer.render_header host foundProject foundIssue +:+
  "## Error Message" +:+ JS.nl +:+ JS.nl +:+
  JS.or_default (metadata_value foundIssue) (ev_message event) +:+
  JS.nl +:+ JS.nl.

(** The latest event of an issue as the upstream serves it after the
    requests [log]; a failed request gives none. *)
Definition latest_event (up : Upstream) (log : list AnyRequest)
  (issueId : string) : option SentryEvent :=
  match up _ log (GetLatestEvent issueId) with
  | Fulfilled ev => Some ev
  | Rejected _ => None
  end.

Definition error_result (message : string) : SentryMCPServer.ToolResult :=
  {| SentryMCPServer.text := "Error: " +:+ message;
     SentryMCPServer.isError := true |}.



Definition demo_host : Host :=
  {| toLocaleString := fun s => s;
     toLocaleTimeString := fun s => s;
     stringify_diagnostics := fun d => "{}";
     simpleMarkdownToClickUp := fun s => [ {| seg_text := s; seg_italic := false |} ] |}.




(** ** A concrete tool server *)

Definition no_args : SentryMCPServer.Args :=
  {| SentryMCPServer.search := None; SentryMCPServer.project := None;
     SentryMCPServer.limit_ := None; SentryMCPServer.issueId := None;
     SentryMCPServer.taskId := None; SentryMCPServer.comment := None;
     SentryMCPServer.statusName := None |}.

(** The standalone server: no manager, nothing about the board in the
    environment. *)
Definition demo_server : SentryMCPServer.State :=
  SentryMCPServer.constructor (fun _ => []) ∅ demo_config None.


Definition frame_of (name file : string) (line : Z) : StackFrame :=
  {| filename := Some file; absPath := None; function := Some name;
     lineNo := Some line |}.

Definition demo_frames : list StackFrame :=
  [frame_of "outer" "app.js" 10; frame_of "middle" "lib.js" 20;
   frame_of "inner" "db.js" 30].

Definition demo_values : list ExceptionValue :=
  [ {| ex_type := "TypeError"; ex_value := "x is undefined";
       stacktrace_frames := Some demo_frames |} ].

Definition demo_event : SentryEvent :=
  {| ev_message := "x is undefined"; ev_tags := None;
     entries := [ {| entry_type := "exception";
                     entry_values := Some demo_values |} ];
     breadcrumbs_values := None |}.

Definition open_status : ClickUpStatus :=
  {| st_id := "s1"; st_status := "open"; st_type := Some "open" |}.

Definition in_progress_status : ClickUpStatus :=
  {| st_id := "s2"; st_status := "in progress"; st_type := Some "custom" |}.

(** A task whose list exposes the statuses open and in progress. *)
Definition demo_task : TaskData :=
  {| td_status := Some open_status; td_statuses := None;
     td_list := Some {| tl_id := Some "list-1";
                        tl_statuses := Some [open_status; in_progress_status] |} |}.

(** A tracker as [demo_upstream] that also serves the latest event, and a
    board that serves the task. *)
Definition demo_full_upstream : Upstream :=
  fun X log rq =>
    match rq in Request T return Response T with
    | GetLatestEvent _ => Fulfilled demo_event
    | GetTask _ => Fulfilled demo_task
    | other => demo_upstream _ log other
    end.

(** The scenario of the specification: [acme/web] has two unresolved
    issues, [acme/api] has none. *)
Definition second_issue : SentryIssue :=
  {| id := "4002"; title := "RangeError: index out of bounds";
     culprit := None;
     permalink := "https://sentry.io/organizations/acme/issues/4002/";
     shortId := "WEB-2"; level := warning; status := "unresolved";
     count := "3"; userCount := 1;
     firstSeen := "2024-01-03T00:00:00Z"; lastSeen := "2024-01-04T00:00:00Z";
     metadata_value := None |}.

Definition scenario_config : SentryConfig :=
  {| sentryUrl := "https://sentry.io"; apiToken := "token";
     projectSlugs := ["acme/web"; "acme/api"] |}.

Definition scenario_upstream : Upstream :=
  fun X log rq =>
    match rq in Request T return Response T with
    | GetOrganizationIssues org params =>
        if String.eqb (query params) "project:web is:unresolved"
        then Fulfilled [demo_issue; second_issue]
        else Fulfilled []
    | _ => Rejected (Error "Network Error")
    end.

Definition scenario_server : SentryMCPServer.State :=
  SentryMCPServer.constructor (fun _ => []) ∅ scenario_config None.

(** * Properties *)

(** ** The resumption monad *)

Section MonadFacts.
Context {S : Type}.

Lemma run_thenS {A B} (up : Upstream) (x : Susp S A)
  (f : Outcome A -> S -> Susp S B) (log : list AnyRequest) :
  run up log (thenS x f) =
  let r := run up log x in run up r.2 (f r.1.1 r.1.2).
Proof.
  revert log. induction x as [o s | s X rq k IH]; intros log; simpl.
  - reflexivity.
  - apply IH.
Qed.

Lemma run_bind {A B} (up : Upstream) (m : Async S A) (f : A -> Async S B)
  (log : list AnyRequest) (s : S) :
  run up log ((m ≫= f) s) =
  let r := run up log (m s) in
  match r.1.1 with
  | Returned a => run up r.2 (f a r.1.2)
  | Thrown e => (Thrown e, r.1.2, r.2)
  end.
Proof.
  unfold mbind, Async_bind, bind. rewrite run_thenS. simpl.
  destruct (run up log (m s)) as [[[a | e] s'] log']; reflexivity.
Qed.

Lemma run_try_catch {A} (up : Upstream) (m : Async S A)
  (h : JsError -> Async S A) (log : list AnyRequest) (s : S) :
  run up log (try_catch m h s) =
  let r := run up log (m s) in
  match r.1.1 with
  | Returned a => (Returned a, r.1.2, r.2)
  | Thrown e => run up r.2 (h e r.1.2)
  end.
Proof.
  unfold try_catch. rewrite run_thenS. simpl.
  destruct (run up log (m s)) as [[[a | e] s'] log']; reflexivity.
Qed.

Lemma run_try_finally {A} (up : Upstream) (m : Async S A) (f : S -> S)
  (log : list AnyRequest) (s : S) :
  run up log (try_finally m f s) =
  let r := run up log (m s) in (r.1.1, f r.1.2, r.2).
Proof. unfold try_finally. rewrite run_thenS. reflexivity. Qed.

Lemma run_for_of_inv {A} (I : S -> Prop) (up : Upstream) (l : list A)
  (body : A -> Async S unit) :
  (∀ x log s, x ∈ l → I s →
     ∃ s' log', run up log (body x s) = (Returned tt, s', log') ∧ I s') →
  ∀ log s, I s →
    ∃ s' log', run up log (for_of l body s) = (Returned tt, s', log') ∧ I s'.
Proof.
  induction l as [| x l IH]; intros Hbody log s Hs; simpl.
  - eauto.
  - change (bind (body x) (λ _, for_of l body)) with
      (body x ≫= (λ _, for_of l body)).
    rewrite run_bind.
    destruct (Hbody x log s) as (s1 & log1 & -> & H1); [left | done |].
    simpl. apply IH; [| done].
    intros y log' s' Hy. apply Hbody. by right.
Qed.

End MonadFacts.

(** ** Maps in insertion order *)

Lemma map_get_set_eq {V} (k : string) (v : V) (m : JS.Map V) :
  JS.map_get k (JS.map_set k v m) = Some v.
Proof.
  induction m as [| [k' v'] m IH]; simpl.
  - by rewrite String.eqb_refl.
  - destruct (String.eqb k' k) eqn:E; simpl; rewrite E; done.
Qed.

Lemma map_get_set_ne {V} (k k' : string) (v : V) (m : JS.Map V) :
  k ≠ k' → JS.map_get k' (JS.map_set k v m) = JS.map_get k' m.
Proof.
  intros Hne. induction m as [| [k0 v0] m IH]; simpl.
  - destruct (String.eqb k k') eqn:E; [| done].
    apply String.eqb_eq in E. done.
  - destruct (String.eqb k0 k) eqn:E; simpl.
    + apply String.eqb_eq in E. subst k0.
      destruct (String.eqb k k') eqn:E'; [| done].
      apply String.eqb_eq in E'. done.
    + by rewrite IH.
Qed.

Lemma map_keys_set {V} (k : string) (v : V) (m : JS.Map V) (x : string) :
  x ∈ JS.map_keys (JS.map_set k v m) ↔ x = k ∨ x ∈ JS.map_keys m.
Proof.
  unfold JS.map_keys. induction m as [| [k' v'] m IH]; simpl.
  - rewrite list_elem_of_singleton. split; [by left |].
    intros [-> | Hin]; [done | by apply elem_of_nil in Hin].
  - destruct (String.eqb k' k) eqn:E; simpl.
    + apply String.eqb_eq in E. subst k'. rewrite !elem_of_cons. tauto.
    + rewrite !elem_of_cons, IH. tauto.
Qed.

Lemma map_keys_set_NoDup {V} (k : string) (v : V) (m : JS.Map V) :
  NoDup (JS.map_keys m) → NoDup (JS.map_keys (JS.map_set k v m)).
Proof.
  unfold JS.map_keys. induction m as [| [k' v'] m IH]; simpl; intros Hnd.
  - apply NoDup_singleton.
  - apply NoDup_cons in Hnd as [Hnotin Hnd].
    destruct (String.eqb k' k) eqn:E; simpl.
    + apply NoDup_cons. done.
    + apply NoDup_cons. split; [| by apply IH].
      intros Hin. apply (map_keys_set k v m k') in Hin as [-> | Hin].
      * by rewrite String.eqb_refl in E.
      * done.
Qed.

(** ** [fetchAllIssues] *)

Lemma fetchProjectIssues_run {S : Type} (up : Upstream) (log : list AnyRequest)
  (projectSlug : string) (s : S) :
  run up log (SentryClient.fetchProjectIssues projectSlug s) =
  (project_outcome up log projectSlug, s, project_log up log projectSlug).
Proof.
  unfold project_outcome, project_log, SentryClient.fetchProjectIssues.
  destruct (negb _ || negb _); [reflexivity |].
  rewrite !run_try_catch. simpl.
  destruct (up _ log _) as [data | [msg | e]]; reflexivity.
Qed.

Lemma fetchAllIssues_from_step {S : Type} (up : Upstream) (log : list AnyRequest)
  (projectSlug : string) (rest : list string) (m : IssuesByProject) (s : S) :
  run up log (SentryClient.fetchAllIssues_from (projectSlug :: rest) m s) =
  run up (project_log up log projectSlug)
    (SentryClient.fetchAllIssues_from rest
       (JS.map_set projectSlug (degrade (project_outcome up log projectSlug)) m)
       s).
Proof.
  cbn [SentryClient.fetchAllIssues_from].
  rewrite run_bind, run_try_catch, run_bind, fetchProjectIssues_run.
  cbn [fst snd].
  destruct (project_outcome up log projectSlug) as [issues | e]; reflexivity.
Qed.

Lemma fetchAllIssues_from_run {S : Type} (up : Upstream) (slugs : list string) :
  ∀ (log : list AnyRequest) (m : IssuesByProject) (s : S),
  ∃ m' log',
    run up log (SentryClient.fetchAllIssues_from slugs m s)
      = (Returned m', s, log') ∧
    run up log (SentryClient.fetchAllIssues_from slugs m tt)
      = (Returned m', tt, log') ∧
    (NoDup (JS.map_keys m) → NoDup (JS.map_keys m')) ∧
    (∀ k, k ∈ JS.map_keys m' ↔ k ∈ JS.map_keys m ∨ k ∈ slugs) ∧
    (∀ slug, (∀ h, ∃ e, project_outcome up h slug = Thrown e) →
       slug ∈ slugs ∨ JS.map_get slug m = Some [] →
       JS.map_get slug m' = Some []).
Proof.
  induction slugs as [| p rest IH]; intros log m s.
  - exists m, log. split; [done |]. split; [done |]. split; [done |].
    split.
    + intros k. split; [by left |].
      intros [Hk | Hk]; [done | by apply elem_of_nil in Hk].
    + intros slug _ [Hin | Hget]; [by apply elem_of_nil in Hin | done].
  - rewrite !fetchAllIssues_from_step.
    destruct (IH (project_log up log p)
                (JS.map_set p (degrade (project_outcome up log p)) m) s)
      as (m' & log' & Hrun & Hrun' & Hnd & Hkeys & Hfail).
    exists m', log'. split; [done |]. split; [done |].
    split; [| split].
    + intros H. by apply Hnd, map_keys_set_NoDup.
    + intros k. rewrite Hkeys, map_keys_set, elem_of_cons. tauto.
    + intros slug Hslug Hor. apply Hfail; [done |].
      destruct (decide (slug = p)) as [-> | Hne].
      * right. destruct (Hslug log) as [e ->]. apply map_get_set_eq.
      * destruct Hor as [Hin | Hget].
        -- apply elem_of_cons in Hin as [-> | Hin]; [done | by left].
        -- right. by rewrite map_get_set_ne.
Qed.

Lemma fetchAllIssues_run {S : Type} (up : Upstream) (log : list AnyRequest)
  (config : SentryConfig) (s : S) :
  run up log (SentryClient.fetchAllIssues config s) =
  (Returned (bulk_fetch up log config).1, s, (bulk_fetch up log config).2).
Proof.
  unfold bulk_fetch, SentryClient.fetchAllIssues.
  destruct (fetchAllIssues_from_run up (projectSlugs config) log [] s)
    as (m' & log' & -> & -> & _).
  reflexivity.
Qed.


(** ** The correlation loop *)

Lemma parseClickUpUrlFromComments_run {S : Type} (up : Upstream)
  (log : list AnyRequest) (issueId : string) (s : S) :
  run up log (SentryClient.parseClickUpUrlFromComments issueId s) =
  (Returned (scan_result up log issueId), s, scan_log up log issueId).
Proof.
  unfold scan_result, scan_log, SentryClient.parseClickUpUrlFromComments,
    SentryClient.getIssueComments.
  rewrite !run_try_catch, !run_bind, !run_try_catch, !run_bind. simpl.
  destruct (up _ log _) as [data | e]; reflexivity.
Qed.

Lemma correlate_issue_run (up : Upstream) (log : list AnyRequest)
  (issue : SentryIssue) (w : StoreManager.World) :
  run up log (StoreManager.correlate_issue issue w) =
  (Returned tt, linked (scan_result up log (id issue)) (id issue) w,
   scan_log up log (id issue)).
Proof.
  unfold StoreManager.correlate_issue.
  rewrite run_try_catch, run_bind, parseClickUpUrlFromComments_run.
  unfold linked. cbn [fst snd].
  destruct (JS.truthy (scan_result up log (id issue))); reflexivity.
Qed.

(** Any property of the world that linking an issue preserves is preserved
    by the whole loop, which always returns. *)
Lemma correlate_inv (I : StoreManager.World → Prop) (up : Upstream)
  (m : IssuesByProject) :
  (∀ issue h w, issue ∈ mjoin (m.*2) → I w →
     I (linked (scan_result up h (id issue)) (id issue) w)) →
  ∀ log w, I w →
    ∃ w' log', run up log (StoreManager.correlate m w) = (Returned tt, w', log')
               ∧ I w'.
Proof.
  intros Hstep. unfold StoreManager.correlate.
  apply run_for_of_inv. intros [project issues] log w Hin Hw. simpl.
  apply run_for_of_inv; [| done].
  intros issue log' w' Hissue Hw'.
  rewrite correlate_issue_run. eexists _, _. split; [done |].
  apply Hstep; [| done].
  apply list_elem_of_join. exists issues. split; [done |].
  apply list_elem_of_fmap. by exists (project, issues).
Qed.

Lemma linked_same_but_links (found : option string) (issueId : string)
  (w0 w : StoreManager.World) :
  same_but_links w0 w → same_but_links w0 (linked found issueId w).
Proof. unfold linked. by destruct (JS.truthy found). Qed.

Lemma correlate_run (up : Upstream) (m : IssuesByProject)
  (log : list AnyRequest) (w : StoreManager.World) :
  ∃ w' log',
    run up log (StoreManager.correlate m w) = (Returned tt, w', log') ∧
    same_but_links w w'.
Proof.
  apply (correlate_inv (same_but_links w)).
  - intros issue h w' _. apply linked_same_but_links.
  - by repeat split.
Qed.

(** ** [refreshSentry] *)

Lemma useSentryStore_refresh_run (up : Upstream) (log : list AnyRequest)
  (config : SentryConfig) (w : StoreManager.World) :
  run up log (StoreManager.useSentryStore_refresh (Some config) w) =
  (Returned tt, loaded (bulk_fetch up log config).1 w,
   (bulk_fetch up log config).2).
Proof.
  unfold StoreManager.useSentryStore_refresh, SentryStore.refresh.
  rewrite run_bind. cbn [SentryStore.set modify run fst snd].
  rewrite run_try_catch, run_bind, fetchAllIssues_run. reflexivity.
Qed.

Lemma refreshSentry_run (up : Upstream) (log : list AnyRequest)
  (config : SentryConfig) (w : StoreManager.World) :
  StoreManager.sentryClient w = Some config →
  ∃ w2 log2,
    run up (bulk_fetch up log config).2
      (StoreManager.correlate (bulk_fetch up log config).1
         (loaded (bulk_fetch up log config).1 w))
      = (Returned tt, w2, log2) ∧
    same_but_links (loaded (bulk_fetch up log config).1 w) w2 ∧
    run up log (StoreManager.refreshSentry w) = (Returned tt, notified w2, log2).
Proof.
  intros Hclient.
  destruct (correlate_run up (bulk_fetch up log config).1
              (bulk_fetch up log config).2
              (loaded (bulk_fetch up log config).1 w))
    as (w2 & log2 & Hrun & Hsame).
  exists w2, log2. split; [done |]. split; [done |].
  unfold StoreManager.refreshSentry.
  rewrite run_bind. cbn [gets run fst snd]. rewrite Hclient.
  rewrite run_bind, useSentryStore_refresh_run. cbn [fst snd].
  rewrite run_bind. cbn [gets run fst snd].
  rewrite run_bind.
  change (SentryStore.issuesByProject
            (StoreManager.sentryStore (loaded (bulk_fetch up log config).1 w)))
    with (bulk_fetch up log config).1.
  rewrite Hrun. reflexivity.
Qed.

Lemma refreshSentry_no_client_run (up : Upstream) (log : list AnyRequest)
  (w : StoreManager.World) :
  StoreManager.sentryClient w = None →
  run up log (StoreManager.refreshSentry w) =
  (Returned tt,
   StoreManager.set_sentryStore
     {| SentryStore.issuesByProject := [];
        SentryStore.isLoading :=
          SentryStore.isLoading (StoreManager.sentryStore w);
        SentryStore.error := SentryStore.error (StoreManager.sentryStore w) |}
     w,
   log).
Proof.
  intros Hclient. unfold StoreManager.refreshSentry.
  rewrite run_bind. cbn [gets run fst snd]. rewrite Hclient. reflexivity.
Qed.

(** ** Promise.all with a call that settles at once *)

Lemma reexpose_headState {S A} (x : Susp S A) : reexpose x (headState x) = x.
Proof. by destruct x. Qed.

Lemma run_par_settled_r {S A B} (up : Upstream) (ob : Outcome B) (sb : S)
  (sched : list bool) :
  ∀ (xa : Susp S A) (log : list AnyRequest),
    run up log (par sched xa (Fin ob sb) (headState xa)) =
    let r := run up log xa in (Returned (r.1.1, ob), r.1.2, r.2).
Proof.
  induction sched as [| [|] sched IH]; intros xa log.
  - cbn [par]. rewrite reexpose_headState, run_thenS. reflexivity.
  - destruct xa as [oa s | s X rq k]; [reflexivity |].
    cbn [par headState run]. apply IH.
  - cbn [par]. rewrite reexpose_headState, run_thenS. reflexivity.
Qed.

Lemma refreshClickUp_unconfigured (w : StoreManager.World) :
  StoreManager.clickUpClient w = None ∨ StoreManager.clickUpConfig w = None →
  StoreManager.refreshClickUp w = Fin (Returned tt) w.
Proof.
  unfold StoreManager.refreshClickUp. intros [H | H].
  - cbv [mbind Async_bind bind gets thenS]. rewrite H. reflexivity.
  - cbv [mbind Async_bind bind gets thenS]. rewrite H.
    by destruct (StoreManager.clickUpClient w).
Qed.

Lemma headState_thenS {S A B} (x : Susp S A) (f : Outcome A → S → Susp S B) :
  settled x = false → headState (thenS x f) = headState x.
Proof. by destruct x. Qed.

(** ** Invariants of a call *)

Section AlongFacts.
Context {S : Type}.
Implicit Types P Q R : S → Prop.

Lemma Along_thenS {A B} P Q R (x : Susp S A)
  (f : Outcome A → S → Susp S B) :
  Along P Q x → (∀ o s, Q s → Along P R (f o s)) → Along P R (thenS x f).
Proof.
  intros Hx Hf. induction Hx as [o s Hs | s X rq k Hs Hk IH]; simpl.
  - by apply Hf.
  - apply Along_Wait; [done |]. intros r s' Hs'. by apply IH.
Qed.

Lemma Along_headState {A} P (x : Susp S A) : Along P P x → P (headState x).
Proof. by intros [o s Hs | s X rq k Hs Hk]. Qed.

Lemma Along_suspended {A} P Q (x : Susp S A) :
  Along P Q x → settled x = false → P (headState x).
Proof. by intros [o s Hs | s X rq k Hs Hk]. Qed.

Lemma Along_resume {A} P Q (up : Upstream)
  (c : list AnyRequest * Susp S A) :
  Along P Q c.2 → Along P Q (resume up c).2.
Proof.
  destruct c as [log x]. simpl. intros H. unfold resume. simpl.
  destruct H as [o s Hs | s X rq k Hs Hk]; simpl.
  - by apply Along_Fin.
  - by apply Hk.
Qed.

Lemma Along_advance {A} P Q (up : Upstream) (n : nat) :
  ∀ c : list AnyRequest * Susp S A,
    Along P Q c.2 → Along P Q (advance up n c).2.
Proof.
  induction n as [| n IH]; intros c Hc; simpl; [done |].
  by apply IH, Along_resume.
Qed.

Lemma Inv_ret {A} P (a : A) (s : S) : P s → Along P P (ret a s).
Proof. by apply Along_Fin. Qed.

Lemma Inv_throw {A} P (e : JsError) (s : S) :
  P s → Along P P (throw (A:=A) e s).
Proof. by apply Along_Fin. Qed.

Lemma Inv_gets {A} P (f : S → A) (s : S) : P s → Along P P (gets f s).
Proof. by apply Along_Fin. Qed.

Lemma Inv_modify P (f : S → S) (s : S) : P (f s) → Along P P (modify f s).
Proof. by apply Along_Fin. Qed.

Lemma Inv_await {X} P (rq : Request X) (s : S) : P s → Along P P (await rq s).
Proof.
  intros Hs. apply Along_Wait; [done |].
  intros [x | e] s' Hs'; by apply Along_Fin.
Qed.

Lemma Inv_bind {A B} P (m : Async S A) (f : A → Async S B) (s : S) :
  Along P P (m s) → (∀ a s', P s' → Along P P (f a s')) →
  Along P P ((m ≫= f) s).
Proof.
  intros Hm Hf. unfold mbind, Async_bind, bind.
  apply (Along_thenS P P P); [done |].
  intros [a | e] s' Hs'; [by apply Hf | by apply Along_Fin].
Qed.

Lemma Inv_try_catch {A} P (m : Async S A) (h : JsError → Async S A) (s : S) :
  Along P P (m s) → (∀ e s', P s' → Along P P (h e s')) →
  Along P P (try_catch m h s).
Proof.
  intros Hm Hh. unfold try_catch.
  apply (Along_thenS P P P); [done |].
  intros [a | e] s' Hs'; [by apply Along_Fin | by apply Hh].
Qed.

Lemma Along_try_finally {A} P Q (m : Async S A) (f : S → S) (s : S) :
  Along P P (m s) → (∀ s', P s' → Q (f s')) →
  Along P Q (try_finally m f s).
Proof.
  intros Hm Hf. unfold try_finally.
  apply (Along_thenS P P Q); [done |].
  intros o s' Hs'. apply Along_Fin. by apply Hf.
Qed.

Lemma Inv_for_of {A} P (l : list A) (body : A → Async S unit) :
  (∀ x s, P s → Along P P (body x s)) →
  ∀ s, P s → Along P P (for_of l body s).
Proof.
  intros Hbody. induction l as [| x l IH]; intros s Hs; simpl.
  - by apply Inv_ret.
  - apply (Inv_bind P (body x) (λ _, for_of l body)); [by apply Hbody |].
    intros _ s' Hs'. by apply IH.
Qed.

End AlongFacts.

(** One step of an invariant proof, by the shape of the program. *)
Ltac inv_step :=
  lazymatch goal with
  | |- Along _ _ (ret _ _) => apply Inv_ret
  | |- Along _ _ (throw _ _) => apply Inv_throw
  | |- Along _ _ (gets _ _) => apply Inv_gets
  | |- Along _ _ (await _ _) => apply Inv_await
  | |- Along _ _ (modify _ _) => apply Inv_modify
  | |- Along _ _ (try_catch _ _ _) => apply Inv_try_catch; [| intros ? ? ?]
  | |- Along _ _ ((_ ≫= _) _) => apply Inv_bind; [| intros ? ? ?]
  | |- Along _ _ (mbind _ _ _) => apply Inv_bind; [| intros ? ? ?]
  end.

Ltac inv_auto := repeat inv_step; try done.

(** The client's calls write nothing to the shared state. *)

Lemma Inv_fetchProjectIssues {S} (P : S → Prop) (projectSlug : string) (s : S) :
  P s → Along P P (SentryClient.fetchProjectIssues projectSlug s).
Proof.
  intros Hs. unfold SentryClient.fetchProjectIssues.
  destruct (negb _ || negb _); [by inv_auto |].
  inv_auto. by destruct e; inv_auto.
Qed.

Lemma Inv_fetchAllIssues_from {S} (P : S → Prop) (slugs : list string) :
  ∀ (m : IssuesByProject) (s : S),
    P s → Along P P (SentryClient.fetchAllIssues_from slugs m s).
Proof.
  induction slugs as [| p rest IH]; intros m s Hs;
    cbn [SentryClient.fetchAllIssues_from]; [by inv_auto |].
  inv_auto; [by apply Inv_fetchProjectIssues | by apply IH].
Qed.

Lemma Inv_fetchAllIssues {S} (P : S → Prop) (config : SentryConfig) (s : S) :
  P s → Along P P (SentryClient.fetchAllIssues config s).
Proof. apply Inv_fetchAllIssues_from. Qed.

Lemma Inv_parseClickUpUrlFromComments {S} (P : S → Prop) (issueId : string)
  (s : S) :
  P s → Along P P (SentryClient.parseClickUpUrlFromComments issueId s).
Proof.
  intros Hs. unfold SentryClient.parseClickUpUrlFromComments,
    SentryClient.getIssueComments.
  by inv_auto.
Qed.

(** [refreshSentry] never writes the manager's clients or configuration. *)
Lemma Inv_refreshSentry (w0 w : StoreManager.World) :
  same_clients w0 w → Along (same_clients w0) (same_clients w0)
                         (StoreManager.refreshSentry w).
Proof.
  intros Hw. unfold StoreManager.refreshSentry.
  apply Inv_bind; [by apply Inv_gets |].
  intros [config |] w1 Hw1.
  - apply Inv_bind.
    + unfold StoreManager.useSentryStore_refresh, SentryStore.refresh.
      apply Inv_bind; [by apply Inv_modify |].
      intros _ w2 Hw2. apply Inv_try_catch.
      * apply Inv_bind; [by apply Inv_fetchAllIssues |].
        intros fetched w3 Hw3. by apply Inv_modify.
      * intros e w3 Hw3. by apply Inv_modify.
    + intros _ w2 Hw2. apply Inv_bind; [by apply Inv_gets |].
      intros m w3 Hw3. apply Inv_bind.
      * unfold StoreManager.correlate.
        apply Inv_for_of; [| done]. intros [project issues] w4 Hw4.
        apply Inv_for_of; [| done]. intros issue w5 Hw5.
        unfold StoreManager.correlate_issue. apply Inv_try_catch.
        -- apply Inv_bind; [by apply Inv_parseClickUpUrlFromComments |].
           intros found w6 Hw6.
           destruct (JS.truthy found); [by apply Inv_modify | by apply Inv_ret].
        -- intros e w6 Hw6. by apply Inv_ret.
      * intros _ w4 Hw4. by apply Inv_modify.
  - by apply Inv_modify.
Qed.

(** ** [refreshAll] when no board is configured *)

Lemma same_clients_refl (w : StoreManager.World) : same_clients w w.
Proof. by repeat split. Qed.

Lemma refreshAll_no_board_run (up : Upstream) (log : list AnyRequest)
  (sched : list bool) (w : StoreManager.World) :
  StoreManager.clickUpClient w = None ∨ StoreManager.clickUpConfig w = None →
  run up log (StoreManager.refreshAll sched w) =
  let r := run up log (StoreManager.refreshSentry w) in
  match r.1.1 with
  | Returned _ => (Returned tt, notified r.1.2, r.2)
  | Thrown e => (Thrown e, r.1.2, r.2)
  end.
Proof.
  intros Hboard. unfold StoreManager.refreshAll.
  rewrite run_bind. unfold promise_all2.
  pose proof (Along_headState _ _
    (Inv_refreshSentry w w (same_clients_refl w))) as (_ & Hc1 & Hc2).
  rewrite refreshClickUp_unconfigured
    by (destruct Hboard as [H | H]; [left | right]; congruence).
  cbn [headState]. rewrite run_thenS, run_par_settled_r. cbn [fst snd].
  destruct (run up log (StoreManager.refreshSentry w)) as [[[[] | e] w'] log'];
    reflexivity.
Qed.

(** C3, as the code has it.  A call of [refreshSentry] made while a tracker
    client is set fires exactly one change notification, and fires it last:
    the store already holds the whole fetched map and the correlation loop
    has run over it.  A call made while no tracker client is set empties the
    map and fires nothing.  [refreshAll] fires one more notification of its
    own after the refreshes it started have settled. *)
Theorem refreshSentry_notifications (up : Upstream) (log : list AnyRequest)
  (w : StoreManager.World) :
  (∀ config, StoreManager.sentryClient w = Some config →
     ∃ w2 log2,
       run up log (StoreManager.refreshSentry w)
         = (Returned tt, notified w2, log2) ∧
       StoreManager.fired w2 = StoreManager.fired w ∧
       StoreManager.getSentryIssues w2 = (bulk_fetch up log config).1 ∧
       run up (bulk_fetch up log config).2
         (StoreManager.correlate (bulk_fetch up log config).1
            (loaded (bulk_fetch up log config).1 w))
         = (Returned tt, w2, log2)) ∧
  (StoreManager.sentryClient w = None →
     ∃ w',
       run up log (StoreManager.refreshSentry w) = (Returned tt, w', log) ∧
       StoreManager.getSentryIssues w' = [] ∧
       StoreManager.fired w' = StoreManager.fired w) ∧
  (∀ sched,
     let r := run up log (promise_all2 sched StoreManager.refreshSentry
                            StoreManager.refreshClickUp w) in
     run up log (StoreManager.refreshAll sched w) =
     match r.1.1 with
     | Returned _ => (Returned tt, notified r.1.2, r.2)
     | Thrown e => (Thrown e, r.1.2, r.2)
     end) ∧
  (∀ config sched,
     StoreManager.sentryClient w = Some config →
     StoreManager.clickUpClient w = None ∨ StoreManager.clickUpConfig w = None →
     ∃ w2 log2,
       run up log (StoreManager.refreshAll sched w)
         = (Returned tt, notified (notified w2), log2) ∧
       StoreManager.fired w2 = StoreManager.fired w).
Proof.
  split; [| split; [| split]].
  - intros config Hclient.
    destruct (refreshSentry_run up log config w Hclient)
      as (w2 & log2 & Hcorr & Hsame & Hrun).
    exists w2, log2. split; [done |].
    destruct Hsame as (_ & _ & _ & _ & Hstore & Hfired).
    split; [done |]. split; [| done].
    unfold StoreManager.getSentryIssues. by rewrite Hstore.
  - intros Hclient. eexists. rewrite refreshSentry_no_client_run by done.
    split; [done |]. done.
  - intros sched r. subst r. unfold StoreManager.refreshAll.
    rewrite run_bind. cbn [fst snd].
    by destruct (run up log _) as [[[[] | e] w'] log'].
  - intros config sched Hclient Hboard.
    destruct (refreshSentry_run up log config w Hclient)
      as (w2 & log2 & Hcorr & Hsame & Hrun).
    exists w2, log2. rewrite refreshAll_no_board_run by done.
    rewrite Hrun. split; [done |].
    by destruct Hsame as (_ & _ & _ & _ & _ & Hfired).
Qed.

(** ** Requests made by a call *)

Lemma run_log_prefix {S A} (up : Upstream) (x : Susp S A) :
  ∀ log, log `prefix_of` (run up log x).2.
Proof.
  induction x as [o s | s X rq k IH]; intros log; simpl.
  - done.
  - etrans; [| apply IH]. by apply prefix_app_r.
Qed.

Lemma run_advance {S A} (up : Upstream) (n : nat) :
  ∀ c : list AnyRequest * Susp S A,
    run up (advance up n c).1 (advance up n c).2 = run up c.1 c.2.
Proof.
  induction n as [| n IH]; intros [log x]; simpl; [done |].
  rewrite IH. unfold resume. simpl. by destruct x.
Qed.

Lemma project_log_eq (up : Upstream) (log : list AnyRequest)
  (projectSlug : string) :
  project_log up log projectSlug =
  log ++ option_list (slug_request projectSlug).
Proof.
  unfold project_log, slug_request, SentryClient.fetchProjectIssues.
  destruct (negb _ || negb _); [simpl; by rewrite app_nil_r |].
  rewrite run_try_catch. simpl.
  destruct (up _ log _) as [data | [msg | e]]; reflexivity.
Qed.

Lemma fetchAllIssues_from_log (up : Upstream) (slugs : list string) :
  ∀ (log : list AnyRequest) (m : IssuesByProject),
    (run up log (SentryClient.fetchAllIssues_from slugs m tt)).2 =
    log ++ omap slug_request slugs.
Proof.
  induction slugs as [| p rest IH]; intros log m.
  - simpl. by rewrite app_nil_r.
  - rewrite fetchAllIssues_from_step, IH, project_log_eq. simpl.
    destruct (slug_request p); simpl.
    + by rewrite <- app_assoc.
    + by rewrite app_nil_r.
Qed.

Lemma bulk_fetch_log (up : Upstream) (log : list AnyRequest)
  (config : SentryConfig) :
  (bulk_fetch up log config).2 = log ++ fetch_sequence config.
Proof. apply fetchAllIssues_from_log. Qed.

Lemma bind_gets {S A B} (f : S → A) (k : A → Async S B) (s : S) :
  (gets f ≫= k) s = k (f s) s.
Proof. reflexivity. Qed.

Lemma bind_modify {S B} (f : S → S) (k : unit → Async S B) (s : S) :
  (modify f ≫= k) s = k tt (f s).
Proof. reflexivity. Qed.

(** ** The in-flight flag of the [IssueStore] *)

Lemma IssueStore_refresh_along (config : SentryConfig) (st : IssueStore.State) :
  IssueStore.sentryClient st = Some config →
  IssueStore.isRefreshing st = false →
  Along (refreshing_with config) (λ _, True) (IssueStore.refresh st).
Proof.
  intros Hclient Hflag. unfold IssueStore.refresh.
  rewrite bind_gets, Hclient, bind_gets, Hflag.
  apply Along_try_finally; [| done].
  apply Inv_bind; [by apply Inv_modify |].
  intros _ s1 H1. apply Inv_bind; [by apply Inv_fetchAllIssues |].
  intros result s2 H2. apply Inv_bind; [by apply Inv_modify |].
  intros _ s3 H3. apply Inv_bind.
  - unfold IssueStore.saveToCache. apply Inv_try_catch.
    + apply Inv_bind; [by apply Inv_gets |].
      intros m s4 H4. by apply Inv_await.
    + intros e s4 H4. by apply Inv_ret.
  - intros _ s4 H4. apply Inv_bind; [by apply Inv_modify |].
    intros _ s5 H5. by apply Inv_gets.
Qed.

(** A call made while the flag is up settles at once with the map the store
    holds, and writes nothing. *)
Lemma IssueStore_refresh_coalesced (config : SentryConfig)
  (st : IssueStore.State) :
  refreshing_with config st →
  IssueStore.refresh st = Fin (Returned (IssueStore.issuesByProject st)) st.
Proof.
  intros [Hflag Hclient]. unfold IssueStore.refresh.
  by rewrite bind_gets, Hclient, bind_gets, Hflag.
Qed.

(** A call of the [IssueStore] refresh that runs alone. *)
Lemma IssueStore_refresh_run (up : Upstream) (log : list AnyRequest)
  (config : SentryConfig) (st : IssueStore.State) :
  IssueStore.sentryClient st = Some config →
  IssueStore.isRefreshing st = false →
  run up log (IssueStore.refresh st) =
  (Returned (bulk_fetch up log config).1,
   {| IssueStore.issuesByProject := (bulk_fetch up log config).1;
      IssueStore.sentryClient := IssueStore.sentryClient st;
      IssueStore.isRefreshing := false;
      IssueStore.fired := IssueStore.fired st ++ [(bulk_fetch up log config).1] |},
   log ++ fetch_sequence config ++
   [existT _ (WorkspaceStateUpdate "sentryIssues" (bulk_fetch up log config).1)]).
Proof.
  intros Hclient Hflag. unfold IssueStore.refresh.
  rewrite run_bind. cbn [gets run fst snd]. rewrite Hclient.
  rewrite run_bind. cbn [gets run fst snd]. rewrite Hflag.
  rewrite run_try_finally, run_bind. cbn [modify run fst snd].
  rewrite run_bind, fetchAllIssues_run. cbn [fst snd].
  rewrite run_bind. cbn [modify run fst snd].
  rewrite run_bind. unfold IssueStore.saveToCache.
  rewrite run_try_catch, run_bind. cbn [gets run fst snd await].
  rewrite bulk_fetch_log, <- app_assoc.
  cbn [IssueStore.set_issues IssueStore.set_refreshing
       IssueStore.issuesByProject IssueStore.sentryClient
       IssueStore.isRefreshing IssueStore.fired].
  destruct (up unit _ _) as [[] | e];
    rewrite run_bind; cbn [IssueStore.fire modify gets ret run fst snd];
    cbn [IssueStore.set_issues IssueStore.set_refreshing
         IssueStore.issuesByProject IssueStore.sentryClient
         IssueStore.isRefreshing IssueStore.fired];
    by rewrite Hclient.
Qed.

Lemma advance_settled {S A} (up : Upstream) (n : nat)
  (c : list AnyRequest * Susp S A) :
  settled c.2 = true → advance up n c = c.
Proof.
  revert c. induction n as [| n IH]; intros [log x] Hx; simpl; [done |].
  destruct x as [o s | s X rq k]; [| done]. by apply IH.
Qed.

(** While a call has not settled, what is sequenced after it has not
    started. *)
Lemma advance_thenS {S A B} (up : Upstream) (f : Outcome A → S → Susp S B)
  (n : nat) :
  ∀ (log : list AnyRequest) (x : Susp S A),
    settled (advance up n (log, x)).2 = false →
    advance up n (log, thenS x f) =
    ((advance up n (log, x)).1, thenS (advance up n (log, x)).2 f).
Proof.
  induction n as [| n IH]; intros log x Hx; [done |].
  destruct x as [o s | s X rq k].
  - by rewrite (advance_settled up (Datatypes.S n) (log, Fin o s)) in Hx.
  - cbn [advance resume fst snd thenS] in *. by apply IH.
Qed.

Lemma settled_thenS {S A B} (x : Susp S A) (f : Outcome A → S → Susp S B) :
  settled x = false → settled (thenS x f) = false.
Proof. by destruct x. Qed.

(** While the first call of the [IssueStore] refresh is still fetching, the
    store holds the map it held before the call. *)
Lemma IssueStore_refresh_fetching (up : Upstream) (log : list AnyRequest)
  (n : nat) (config : SentryConfig) (st : IssueStore.State) :
  IssueStore.sentryClient st = Some config →
  IssueStore.isRefreshing st = false →
  settled (advance up n
    (log, SentryClient.fetchAllIssues config
            (IssueStore.set_refreshing true st))).2 = false →
  settled (advance up n (log, IssueStore.refresh st)).2 = false ∧
  IssueStore.issuesByProject
    (headState (advance up n (log, IssueStore.refresh st)).2)
  = IssueStore.issuesByProject st.
Proof.
  intros Hclient Hflag Hfetching. unfold IssueStore.refresh.
  rewrite bind_gets, Hclient, bind_gets, Hflag.
  unfold try_finally. rewrite bind_modify.
  unfold mbind, Async_bind, bind.
  pose proof (Along_advance (λ s, s = IssueStore.set_refreshing true st)
    (λ s, s = IssueStore.set_refreshing true st) up n
    (log, SentryClient.fetchAllIssues config
            (IssueStore.set_refreshing true st))
    (Inv_fetchAllIssues _ config _ eq_refl)) as Halong.
  apply Along_headState in Halong.
  rewrite advance_thenS.
  - cbn [snd]. rewrite advance_thenS by done. cbn [snd].
    split; [by do 2 apply settled_thenS |].
    rewrite !headState_thenS by (by try apply settled_thenS).
    by rewrite Halong.
  - rewrite advance_thenS by done. by apply settled_thenS.
Qed.

(** C1, as the code has it.  In the [IssueStore], a refresh called while
    another one is in flight (at any of its suspension points) makes no
    request and settles at once with the map the store holds at that moment,
    which it leaves untouched; while the first call is still fetching, that
    is the map the store held before it, not the one being fetched.  The
    first call goes on as if alone, so one fetch sequence is made in all.
    [StoreManager.refreshSentry] has no in-flight guard: a call started
    while another one is in flight makes its own fetch sequence. *)
Theorem refresh_while_in_flight (up : Upstream) (log : list AnyRequest)
  (n : nat) :
  (∀ config st,
     IssueStore.sentryClient st = Some config →
     IssueStore.isRefreshing st = false →
     let c := advance up n (log, IssueStore.refresh st) in
     settled c.2 = false →
     IssueStore.refresh (headState c.2) =
       Fin (Returned (IssueStore.issuesByProject (headState c.2)))
         (headState c.2) ∧
     (settled (advance up n
        (log, SentryClient.fetchAllIssues config
                (IssueStore.set_refreshing true st))).2 = false →
      IssueStore.issuesByProject (headState c.2) =
      IssueStore.issuesByProject st) ∧
     ∃ st',
       run up c.1 c.2 =
         (Returned (bulk_fetch up log config).1, st',
          log ++ fetch_sequence config ++
          [existT _ (WorkspaceStateUpdate "sentryIssues"
                       (bulk_fetch up log config).1)]) ∧
       IssueStore.issuesByProject st' = (bulk_fetch up log config).1) ∧
  (∀ config w,
     StoreManager.sentryClient w = Some config →
     let c := advance up n (log, StoreManager.refreshSentry w) in
     ∃ wB logB,
       run up c.1 (StoreManager.refreshSentry (headState c.2))
         = (Returned tt, wB, logB) ∧
       (c.1 ++ fetch_sequence config) `prefix_of` logB).
Proof.
  split.
  - intros config st Hclient Hflag c Hpending. split; [| split].
    + apply (IssueStore_refresh_coalesced config).
      apply (Along_suspended _ (λ _, True)); [| done].
      apply (Along_advance _ _ up n (log, IssueStore.refresh st)).
      by apply IssueStore_refresh_along.
    + intros Hfetching.
      by apply (IssueStore_refresh_fetching up log n config st).
    + eexists. subst c. rewrite run_advance. cbn [fst snd].
      rewrite (IssueStore_refresh_run up log config st) by done.
      split; reflexivity.
  - intros config w Hclient c.
    assert (same_clients w (headState c.2)) as (Hc & _ & _).
    { apply Along_headState.
      apply (Along_advance _ _ up n (log, StoreManager.refreshSentry w)).
      apply Inv_refreshSentry, same_clients_refl. }
    rewrite Hclient in Hc.
    destruct (refreshSentry_run up c.1 config (headState c.2) Hc)
      as (w2 & log2 & Hcorr & _ & Hrun).
    exists (notified w2), log2. split; [done |].
    rewrite <- (bulk_fetch_log up).
    pose proof (run_log_prefix up
      (StoreManager.correlate (bulk_fetch up c.1 config).1
         (loaded (bulk_fetch up c.1 config).1 (headState c.2)))
      (bulk_fetch up c.1 config).2) as Hpre.
    by rewrite Hcorr in Hpre.
Qed.

(** The claim C1 fails as stated.  In the [IssueStore], the second of two
    overlapping calls receives the old (empty) map while the first receives
    the fetched one.  In the [StoreManager], two overlapping calls make two
    fetch sequences. *)
Lemma refresh_while_in_flight_counterexample :
  let first := IssueStore.refresh demo_store in
  let a := StoreManager.refreshSentry demo_world in
  let rb := run demo_upstream [] (StoreManager.refreshSentry (headState a)) in
  let ra := run demo_upstream rb.2 (reexpose a rb.1.2) in
  (settled first = false ∧
   IssueStore.refresh (headState first) = Fin (Returned []) (headState first) ∧
   (run demo_upstream [] first).1.1 = Returned [("acme/web", [demo_issue])] ∧
   (run demo_upstream [] first).1.1 ≠ Returned []) ∧
  (settled a = false ∧
   length (List.filter is_issues_fetch ra.2) = 2).
Proof. vm_compute. repeat split. by intros H. Qed.

(** The claim C3 fails as stated.  A refresh made while no tracker client is
    set replaces the map and fires no notification; one [refreshAll] fires
    two. *)
Lemma refreshSentry_notifications_counterexample :
  let r := run demo_upstream [] (StoreManager.refreshSentry demo_world_no_client) in
  let r' := run demo_upstream [] (StoreManager.refreshAll [] demo_world) in
  (StoreManager.getSentryIssues demo_world_no_client = [("acme/web", [])] ∧
   StoreManager.getSentryIssues r.1.2 = [] ∧
   length (StoreManager.fired r.1.2) = 0) ∧
  (StoreManager.fired demo_world = [] ∧
   length (StoreManager.fired r'.1.2) = 2).
Proof. vm_compute. repeat split. Qed.

(** The theorem on the concrete store: the second call gets the empty map the
    store holds while the first call waits for its fetch. *)
Lemma refresh_while_in_flight_witness :
  (IssueStore.sentryClient demo_store = Some demo_config ∧
   IssueStore.isRefreshing demo_store = false ∧
   settled (advance demo_upstream 0 ([], IssueStore.refresh demo_store)).2
     = false) ∧
  IssueStore.refresh
    (headState (advance demo_upstream 0 ([], IssueStore.refresh demo_store)).2)
  = Fin (Returned [])
      (headState (advance demo_upstream 0 ([], IssueStore.refresh demo_store)).2).
Proof.
  split; [by vm_compute |].
  apply (proj1 (refresh_while_in_flight demo_upstream [] 0) demo_config
           demo_store); reflexivity.
Defined.

(** The theorem on the concrete manager: one notification, fired last. *)
Lemma refreshSentry_notifications_witness :
  StoreManager.sentryClient demo_world = Some demo_config ∧
  ∃ w2 log2,
    run demo_upstream [] (StoreManager.refreshSentry demo_world)
      = (Returned tt, notified w2, log2) ∧
    StoreManager.fired w2 = StoreManager.fired demo_world.
Proof.
  split; [reflexivity |].
  destruct (proj1 (refreshSentry_notifications demo_upstream [] demo_world)
              demo_config eq_refl) as (w2 & log2 & Hrun & Hfired & _).
  by exists w2, log2.
Defined.

(** ** The URL pattern *)

Lemma string_app_cons (x : ascii) (a b : string) :
  String x a +:+ b = String x (a +:+ b).
Proof. reflexivity. Qed.

Lemma string_app_nil_l (b : string) : "" +:+ b = b.
Proof. reflexivity. Qed.

Lemma string_app_assoc (a b c : string) : (a +:+ b) +:+ c = a +:+ (b +:+ c).
Proof.
  induction a as [| x a IH]; [done |].
  by rewrite !string_app_cons, IH.
Qed.

Lemma string_app_nil_r (a : string) : a +:+ "" = a.
Proof.
  induction a as [| x a IH]; [done |]. by rewrite string_app_cons, IH.
Qed.

Lemma string_length_app (a b : string) :
  String.length (a +:+ b) = String.length a + String.length b.
Proof.
  induction a as [| x a IH]; [done |].
  rewrite string_app_cons. simpl. by rewrite IH.
Qed.

Lemma strip_prefix_Some (p s r : string) :
  SentryClient.strip_prefix p s = Some r ↔ s = p +:+ r.
Proof.
  revert s. induction p as [| c p IH]; intros s; simpl.
  - rewrite string_app_nil_l. split; [by intros [= ->] | by intros ->].
  - rewrite string_app_cons. destruct s as [| d s]; [done |].
    destruct (Ascii.eqb c d) eqn:E.
    + apply Ascii.eqb_eq in E. subst d. rewrite IH.
      split; [by intros -> | by intros [= ->]].
    + apply Ascii.eqb_neq in E. split; [done |]. intros [= Hd _]. done.
Qed.

Lemma take_class_all (s : string) : all_in_class (SentryClient.take_class s) = true.
Proof.
  induction s as [| c s IH]; simpl; [done |].
  destruct (SentryClient.in_class c) eqn:E; simpl; [by rewrite E |done].
Qed.

(** What follows the run taken by the class does not start in the class. *)
Lemma take_class_split (s : string) :
  ∃ rest, s = SentryClient.take_class s +:+ rest ∧
          SentryClient.take_class rest = "".
Proof.
  induction s as [| c s (rest & Hs & Hrest)]; simpl.
  - by exists "".
  - destruct (SentryClient.in_class c) eqn:E.
    + exists rest. rewrite string_app_cons. by rewrite <- Hs.
    + exists (String c s). rewrite string_app_nil_l. simpl. by rewrite E.
Qed.

Lemma take_class_app (w post : string) :
  all_in_class w = true →
  SentryClient.take_class (w +:+ post) = w +:+ SentryClient.take_class post.
Proof.
  induction w as [| c w IH]; simpl; [done |].
  intros [Hc Hw]%andb_prop. rewrite !string_app_cons. simpl.
  rewrite Hc. by rewrite IH.
Qed.

Lemma match_here_Some (s u : string) :
  SentryClient.match_here s = Some u →
  ∃ rest, s = SentryClient.clickUpUrlPrefix +:+ rest ∧
          u = SentryClient.clickUpUrlPrefix +:+ SentryClient.take_class rest ∧
          SentryClient.take_class rest ≠ "".
Proof.
  unfold SentryClient.match_here.
  destruct (SentryClient.strip_prefix _ s) as [rest |] eqn:E; [| done].
  apply strip_prefix_Some in E.
  destruct (SentryClient.take_class rest) as [| c w] eqn:Ew; [done |].
  intros [= <-]. exists rest. by rewrite Ew.
Qed.

Lemma match_here_shaped (u post : string) :
  url_shaped u → is_Some (SentryClient.match_here (u +:+ post)).
Proof.
  intros (w & -> & Hne & Hall). unfold SentryClient.match_here.
  rewrite string_app_assoc.
  assert (SentryClient.strip_prefix SentryClient.clickUpUrlPrefix
            (SentryClient.clickUpUrlPrefix +:+ w +:+ post)
          = Some (w +:+ post)) as -> by by apply strip_prefix_Some.
  rewrite take_class_app by done.
  destruct w as [| c w]; [done |]. rewrite string_app_cons. by eexists.
Qed.

(** A string of class characters at the start of [s] is no longer than the
    run the class takes there. *)
Lemma take_class_longest (w post : string) :
  all_in_class w = true →
  String.length w ≤ String.length (SentryClient.take_class (w +:+ post)).
Proof.
  intros Hall. rewrite take_class_app, string_length_app by done. lia.
Qed.

(** The result of a match is an occurrence of the shape in the text, the
    leftmost one, and the longest at its position. *)
Lemma regex_match_Some (text u : string) :
  SentryClient.regex_match text = Some u →
  ∃ pre post,
    text = pre +:+ u +:+ post ∧ url_shaped u ∧
    (∀ pre' u' post', text = pre' +:+ u' +:+ post' → url_shaped u' →
       String.length pre ≤ String.length pre') ∧
    (∀ u' post', u +:+ post = u' +:+ post' → url_shaped u' →
       String.length u' ≤ String.length u).
Proof.
  revert u. induction text as [| c text IH]; intros u; simpl.
  - destruct (SentryClient.match_here "") eqn:E; [| done].
    by apply match_here_Some in E as (rest & Hrest & _).
  - destruct (SentryClient.match_here (String c text)) as [u0 |] eqn:E.
    + intros [= <-].
      apply match_here_Some in E as (rest & Htext & Hu & Hne).
      destruct (take_class_split rest) as (post & Hrest & Hpost).
      exists "", post. split; [| split; [| split]].
      * rewrite string_app_nil_l, Htext, Hu, string_app_assoc.
        by rewrite <- Hrest.
      * exists (SentryClient.take_class rest).
        split; [done |]. split; [done | apply take_class_all].
      * intros. simpl. lia.
      * intros u' post' Heq (w' & -> & _ & Hall).
        rewrite Hu, !string_app_assoc in Heq.
        apply (inj (String.append _)) in Heq.
        rewrite <- Hrest in Heq. rewrite Hu, !string_length_app.
        pose proof (take_class_longest w' post' Hall) as Hlen.
        rewrite <- Heq in Hlen. lia.
    + intros Hm. destruct (IH u Hm) as (pre & post & Htext & Hshape & Hleft & Hlong).
      exists (String c pre), post. split; [| split; [| split]].
      * rewrite string_app_cons. by rewrite <- Htext.
      * done.
      * intros pre' u' post' Heq Hu'. destruct pre' as [| d pre'].
        -- rewrite string_app_nil_l in Heq.
           pose proof (match_here_shaped u' post' Hu') as [x Hx].
           rewrite <- Heq in Hx. congruence.
        -- rewrite string_app_cons in Heq. injection Heq as _ Heq. simpl.
           apply le_n_S. by apply (Hleft pre' u' post').
      * done.
Qed.

(** No match: the shape occurs nowhere in the text. *)
Lemma regex_match_None (text : string) :
  SentryClient.regex_match text = None →
  ∀ pre u post, text = pre +:+ u +:+ post → ¬ url_shaped u.
Proof.
  induction text as [| c text IH]; simpl.
  - destruct (SentryClient.match_here "") eqn:E; [done |].
    intros _ pre u post Heq Hu.
    destruct pre; [| done]. rewrite string_app_nil_l in Heq.
    pose proof (match_here_shaped u post Hu) as [x Hx].
    rewrite <- Heq in Hx. congruence.
  - destruct (SentryClient.match_here (String c text)) eqn:E; [done |].
    intros Hm pre u post Heq Hu. destruct pre as [| d pre].
    + rewrite string_app_nil_l in Heq.
      pose proof (match_here_shaped u post Hu) as [x Hx].
      rewrite <- Heq in Hx. congruence.
    + rewrite string_app_cons in Heq. injection Heq as _ Heq.
      by apply (IH Hm pre u post).
Qed.

(** ** The scan of a comment thread *)

Lemma scan_comments_Some (comments : list SentryComment) (u : string) :
  SentryClient.scan_comments comments = Some u ↔
  ∃ i c, comments !! i = Some c ∧
         SentryClient.regex_match (SentryClient.comment_body c) = Some u ∧
         ∀ j c', j < i → comments !! j = Some c' →
           SentryClient.regex_match (SentryClient.comment_body c') = None.
Proof.
  induction comments as [| c0 rest IH]; simpl.
  - split; [done | by intros (i & c & Hi & _)].
  - destruct (SentryClient.regex_match (SentryClient.comment_body c0))
      as [u0 |] eqn:E0.
    + split.
      * intros [= <-]. exists 0, c0. repeat split; [done |]. intros; lia.
      * intros (i & c & Hi & Hc & Hbefore). destruct i as [| i].
        -- simpl in Hi. injection Hi as <-. congruence.
        -- specialize (Hbefore 0 c0 ltac:(lia) eq_refl). congruence.
    + rewrite IH. split.
      * intros (i & c & Hi & Hc & Hbefore). exists (S i), c.
        repeat split; [done | done |].
        intros [| j] c' Hj Hc'; simpl in Hc'; [by injection Hc' as <- |].
        apply (Hbefore j); [lia | done].
      * intros (i & c & Hi & Hc & Hbefore). destruct i as [| i].
        -- simpl in Hi. injection Hi as <-. congruence.
        -- exists i, c. repeat split; [done | done |].
           intros j c' Hj Hc'. apply (Hbefore (S j)); [lia | done].
Qed.

Lemma scan_comments_None (comments : list SentryComment) :
  SentryClient.scan_comments comments = None ↔
  ∀ c, c ∈ comments →
    SentryClient.regex_match (SentryClient.comment_body c) = None.
Proof.
  induction comments as [| c0 rest IH]; simpl.
  - split; [| done]. intros _ c Hc. by apply elem_of_nil in Hc.
  - destruct (SentryClient.regex_match (SentryClient.comment_body c0))
      as [u0 |] eqn:E0.
    + split; [done |]. intros H. specialize (H c0 ltac:(left)). congruence.
    + rewrite IH. split.
      * intros H c [-> | Hc]%elem_of_cons; [done | by apply H].
      * intros H c Hc. apply H. by right.
Qed.

Lemma scan_result_eq (up : Upstream) (log : list AnyRequest)
  (issueId : string) :
  scan_result up log issueId =
  match up _ log (GetIssueComments issueId) with
  | Fulfilled data => SentryClient.scan_comments (default [] data)
  | Rejected _ => None
  end.
Proof.
  unfold scan_result, SentryClient.parseClickUpUrlFromComments,
    SentryClient.getIssueComments.
  rewrite !run_try_catch, !run_bind, !run_try_catch, !run_bind. simpl.
  destruct (up _ log _) as [data | e]; reflexivity.
Qed.

(** ** Task references through a refresh *)

Lemma linked_lookup_ne (found : option string) (issueId other : string)
  (w : StoreManager.World) :
  other ≠ issueId →
  StoreManager.getClickUpTaskUrl issueId (linked found other w) =
  StoreManager.getClickUpTaskUrl issueId w.
Proof.
  intros Hne. unfold linked, StoreManager.getClickUpTaskUrl.
  destruct (JS.truthy found); [| done]. simpl. by rewrite lookup_insert_ne.
Qed.

Lemma linked_lookup_none (issueId other : string) (w : StoreManager.World) :
  StoreManager.getClickUpTaskUrl issueId (linked None other w) =
  StoreManager.getClickUpTaskUrl issueId w.
Proof. reflexivity. Qed.

Lemma linked_is_Some (found : option string) (issueId other : string)
  (w : StoreManager.World) :
  is_Some (StoreManager.getClickUpTaskUrl issueId w) →
  is_Some (StoreManager.getClickUpTaskUrl issueId (linked found other w)).
Proof.
  intros Hw. unfold linked, StoreManager.getClickUpTaskUrl in *.
  destruct (JS.truthy found); [| done]. simpl.
  destruct (decide (other = issueId)) as [-> | Hne].
  - rewrite lookup_insert_eq. by eexists.
  - by rewrite lookup_insert_ne.
Qed.

(** Any property of the world that depends on the task links only, and
    that linking preserves, is preserved by [refreshSentry]. *)
Lemma refreshSentry_links_inv (I : gmap string string → Prop) (up : Upstream)
  (log : list AnyRequest) (w : StoreManager.World) :
  (∀ issue h w', I (ClickUpStore.issueTaskMap (StoreManager.clickUpStore w')) →
     I (ClickUpStore.issueTaskMap (StoreManager.clickUpStore
          (linked (scan_result up h (id issue)) (id issue) w')))) →
  I (ClickUpStore.issueTaskMap (StoreManager.clickUpStore w)) →
  I (ClickUpStore.issueTaskMap (StoreManager.clickUpStore
       (run up log (StoreManager.refreshSentry w)).1.2)).
Proof.
  intros Hstep Hw.
  destruct (StoreManager.sentryClient w) as [config |] eqn:Hclient.
  - destruct (correlate_inv
               (λ w', I (ClickUpStore.issueTaskMap (StoreManager.clickUpStore w')))
               up (bulk_fetch up log config).1
               (λ issue h w' _, Hstep issue h w')
               (bulk_fetch up log config).2
               (loaded (bulk_fetch up log config).1 w) Hw)
      as (w2 & log2 & Hrun & Hinv).
    destruct (refreshSentry_run up log config w Hclient)
      as (w2' & log2' & Hrun' & _ & ->).
    rewrite Hrun in Hrun'. injection Hrun' as <- <-. done.
  - by rewrite refreshSentry_no_client_run.
Qed.

Lemma refreshSentry_keeps_link (up : Upstream) (log : list AnyRequest)
  (issueId : string) (w : StoreManager.World) :
  (∀ h, scan_result up h issueId = None) →
  StoreManager.getClickUpTaskUrl issueId
    (run up log (StoreManager.refreshSentry w)).1.2 =
  StoreManager.getClickUpTaskUrl issueId w.
Proof.
  intros Hscan.
  apply (refreshSentry_links_inv
    (λ m, m !! issueId = StoreManager.getClickUpTaskUrl issueId w));
    [| done].
  intros issue h w' Hw'.
  destruct (decide (id issue = issueId)) as [<- | Hne].
  - by rewrite Hscan.
  - etrans; [| exact Hw'].
    by apply (linked_lookup_ne (scan_result up h (id issue)) issueId (id issue)).
Qed.

Lemma refreshSentry_never_unlinks (up : Upstream) (log : list AnyRequest)
  (issueId : string) (w : StoreManager.World) :
  is_Some (StoreManager.getClickUpTaskUrl issueId w) →
  is_Some (StoreManager.getClickUpTaskUrl issueId
    (run up log (StoreManager.refreshSentry w)).1.2).
Proof.
  intros Hw.
  apply (refreshSentry_links_inv (λ m, is_Some (m !! issueId))); [| done].
  intros issue h w'. apply linked_is_Some.
Qed.

(** ** [createClickUpTask] *)

Lemma createClickUpTask_links (up : Upstream) (log log1 : list AnyRequest)
  (issueId issueTitle issueUrl : string) (created : string * string)
  (w w1 : StoreManager.World) :
  run up log (StoreManager.createClickUpTask issueId issueTitle issueUrl w)
    = (Returned created, w1, log1) →
  StoreManager.getClickUpTaskUrl issueId w1 = Some created.2.
Proof.
  unfold StoreManager.createClickUpTask.
  rewrite run_bind. cbn [gets run fst snd].
  rewrite run_bind. cbn [gets run fst snd].
  destruct (StoreManager.clickUpClient w) as [c |]; [| done].
  destruct (StoreManager.clickUpConfig w) as [cfg |]; [| done].
  rewrite run_bind. cbn [gets run fst snd].
  destruct (JS.truthy _); [| done].
  rewrite run_bind.
  unfold StoreManager.useClickUpStore_createTask, ClickUpStore.createTask,
    ClickUpClient.createTask.
  rewrite run_bind, run_try_catch. cbn [await run fst snd].
  destruct (up _ log _) as [task | [msg | e]]; [| done | done].
  cbn [run fst snd]. rewrite run_bind. cbn.
  intros [= <- <- _]. unfold StoreManager.getClickUpTaskUrl. cbn.
  by rewrite lookup_insert_eq.
Qed.

(** C4. Once [createClickUpTask] has recorded a task reference for an
    issue, a later refresh whose scan of that issue's comments finds no task
    URL leaves the reference as it was; and whatever the scans find, the
    refresh never removes the entry. *)
Theorem created_reference_survives_scan
  (up : Upstream) (log log1 : list AnyRequest)
  (issueId issueTitle issueUrl : string) (created : string * string)
  (w w1 : StoreManager.World)
  (Hcreate :
     run up log (StoreManager.createClickUpTask issueId issueTitle issueUrl w)
       = (Returned created, w1, log1)) :
  StoreManager.getClickUpTaskUrl issueId w1 = Some created.2 ∧
  ∀ (up' : Upstream) (log' : list AnyRequest) (w2 : StoreManager.World),
    StoreManager.getClickUpTaskUrl issueId w2 = Some created.2 →
    is_Some (StoreManager.getClickUpTaskUrl issueId
      (run up' log' (StoreManager.refreshSentry w2)).1.2) ∧
    ((∀ h, scan_result up' h issueId = None) →
     StoreManager.getClickUpTaskUrl issueId
       (run up' log' (StoreManager.refreshSentry w2)).1.2 = Some created.2).
Proof.
  split; [by eapply createClickUpTask_links |].
  intros up' log' w2 Hw2. split.
  - apply refreshSentry_never_unlinks. rewrite Hw2. by eexists.
  - intros Hscan. by rewrite refreshSentry_keeps_link.
Qed.

(** The theorem on the concrete board: the task is created, and a refresh
    whose scan finds an empty thread keeps its URL. *)
Lemma created_reference_survives_scan_witness :
  let r := run demo_board_upstream []
             (StoreManager.createClickUpTask "4001" "TypeError"
                "https://sentry.io/organizations/acme/issues/4001/"
                demo_board_world) in
  r.1.1 = Returned ("abc123", "https://app.clickup.com/t/abc123") ∧
  StoreManager.getClickUpTaskUrl "4001"
    (run demo_board_upstream [] (StoreManager.refreshSentry r.1.2)).1.2
  = Some "https://app.clickup.com/t/abc123".
Proof.
  split; [by vm_compute |].
  refine (proj2 (proj2 (created_reference_survives_scan demo_board_upstream
    [] _ "4001" "TypeError"
    "https://sentry.io/organizations/acme/issues/4001/"
    ("abc123", "https://app.clickup.com/t/abc123") demo_board_world _ _)
    demo_board_upstream [] _ _) _).
  - by vm_compute.
  - by vm_compute.
  - intros h. by vm_compute.
Defined.

(** C9. The correlator returns the result of the pattern on the first
    comment whose text has a match; a match is an occurrence of the task URL
    shape in the text, the leftmost one and the longest there; a text that
    contains the shape has a match, and a text that does not has none.  On
    the scenario of the specification the match is the URL [abc123].  When
    the scans of an issue find nothing, a refresh leaves the task reference
    of that issue, if any, as it was. *)
Theorem correlator_first_url (up : Upstream) (log : list AnyRequest)
  (issueId : string) :
  scan_result up log issueId =
    match up _ log (GetIssueComments issueId) with
    | Fulfilled data => SentryClient.scan_comments (default [] data)
    | Rejected _ => None
    end ∧
  (∀ comments u,
     SentryClient.scan_comments comments = Some u ↔
     ∃ i c, comments !! i = Some c ∧
            SentryClient.regex_match (SentryClient.comment_body c) = Some u ∧
            ∀ j c', j < i → comments !! j = Some c' →
              SentryClient.regex_match (SentryClient.comment_body c') = None) ∧
  (∀ text u,
     SentryClient.regex_match text = Some u →
     ∃ pre post,
       text = pre +:+ u +:+ post ∧ url_shaped u ∧
       (∀ pre' u' post', text = pre' +:+ u' +:+ post' → url_shaped u' →
          String.length pre ≤ String.length pre') ∧
       (∀ u' post', u +:+ post = u' +:+ post' → url_shaped u' →
          String.length u' ≤ String.length u)) ∧
  (∀ text pre u post,
     text = pre +:+ u +:+ post → url_shaped u →
     is_Some (SentryClient.regex_match text)) ∧
  (∀ text,
     (∀ pre u post, text = pre +:+ u +:+ post → ¬ url_shaped u) →
     SentryClient.regex_match text = None) ∧
  SentryClient.regex_match "See https://app.clickup.com/t/abc123 for tracking"
    = Some "https://app.clickup.com/t/abc123" ∧
  (∀ w,
     (∀ h, scan_result up h issueId = None) →
     StoreManager.getClickUpTaskUrl issueId
       (run up log (StoreManager.refreshSentry w)).1.2 =
     StoreManager.getClickUpTaskUrl issueId w).
Proof.
  split; [apply scan_result_eq |].
  split; [apply scan_comments_Some |].
  split; [apply regex_match_Some |].
  split; [| split; [| split; [reflexivity |]]].
  - intros text pre u post Htext Hu.
    destruct (SentryClient.regex_match text) as [u' |] eqn:E; [by eexists |].
    by destruct (regex_match_None text E pre u post Htext).
  - intros text Hnone.
    destruct (SentryClient.regex_match text) as [u |] eqn:E; [| done].
    destruct (regex_match_Some text u E) as (pre & post & Htext & Hu & _).
    by destruct (Hnone pre u post Htext).
  - intros w Hscan. by apply refreshSentry_keeps_link.
Qed.

(** ** Rendering of the stack trace *)

Lemma foldl_append {A} (f : A → string) (l : list A) (d : string) :
  foldl (λ acc x, acc +:+ f x) d l = d +:+ concat_strings (f <$> l).
Proof.
  revert d. induction l as [| x l IH]; intros d; simpl.
  - by rewrite string_app_nil_r.
  - by rewrite IH, string_app_assoc.
Qed.

Lemma foldl_pointwise {A B} (f g : A → B → A) (l : list B) (d : A) :
  (∀ a x, f a x = g a x) → foldl f d l = foldl g d l.
Proof.
  intros Hfg. revert d. induction l as [| x l IH]; intros d; simpl; [done |].
  by rewrite Hfg, IH.
Qed.

Lemma append_frames_block (host : Host) (details : string)
  (frames : list StackFrame) :
  SentryMCPServer.append_frames details frames =
  details +:+ frames_block host frames.
Proof. apply (foldl_append SentryMCPServer.render_frame). Qed.

Lemma append_exceptions_block (host : Host) (details : string)
  (values : list ExceptionValue) :
  SentryMCPServer.append_exceptions details values =
  details +:+ concat_strings (exception_block host <$> reverse values).
Proof.
  unfold SentryMCPServer.append_exceptions.
  rewrite <- (foldl_append (exception_block host)).
  apply foldl_pointwise. intros acc exception. unfold exception_block.
  destruct (stacktrace_frames exception) as [frames |].
  - rewrite (append_frames_block host). by rewrite !string_app_assoc.
  - by rewrite string_app_nil_r.
Qed.

(** ** The tool handler *)

Lemma callTool_run (host : Host) (up : Upstream) (log : list AnyRequest)
  (name : string) (args : SentryMCPServer.Args) (st : SentryMCPServer.State) :
  run up log (SentryMCPServer.callTool host name args st) =
  let r := run up log (SentryMCPServer.dispatch host name args st) in
  match r.1.1 with
  | Returned result => (Returned result, r.1.2, r.2)
  | Thrown e => (Returned (error_result (error_message e)), r.1.2, r.2)
  end.
Proof.
  unfold SentryMCPServer.callTool. rewrite run_try_catch. cbn [fst snd].
  destruct (run up log _) as [[[result | e] st'] log']; reflexivity.
Qed.

(** ** Looking up an identifier *)

Lemma fetchLatestEvent_run {S} (up : Upstream) (log : list AnyRequest)
  (issueId : string) (s : S) :
  run up log (SentryClient.fetchLatestEvent issueId s) =
  (Returned (latest_event up log issueId), s,
   log ++ [existT _ (GetLatestEvent issueId)]).
Proof.
  unfold SentryClient.fetchLatestEvent, latest_event.
  rewrite run_try_catch, run_bind. simpl.
  destruct (up _ log _) as [ev | e]; reflexivity.
Qed.

Lemma getIssueDetails_run (host : Host) (up : Upstream)
  (log : list AnyRequest) (args : SentryMCPServer.Args)
  (st : SentryMCPServer.State) :
  JS.truthy (SentryMCPServer.issueId args) = true →
  run up log (SentryMCPServer.getIssueDetails host args st) =
  let fetched := bulk_fetch up log (SentryMCPServer.sentryClient st) in
  match SentryMCPServer.find_issue (JS.show (SentryMCPServer.issueId args))
          fetched.1 with
  | None =>
      (Thrown (Error ("Issue not found: " +:+
                      JS.show (SentryMCPServer.issueId args))),
       st, fetched.2)
  | Some (foundProject, foundIssue) =>
      (Returned (SentryMCPServer.success
         (SentryMCPServer.render_details host foundProject foundIssue
            (latest_event up fetched.2 (id foundIssue)))),
       st, fetched.2 ++ [existT _ (GetLatestEvent (id foundIssue))])
  end.
Proof.
  intros Hid. unfold SentryMCPServer.getIssueDetails. rewrite Hid.
  cbn [negb]. rewrite run_bind. cbn [gets run fst snd].
  rewrite run_bind, fetchAllIssues_run. cbn [fst snd].
  destruct (SentryMCPServer.find_issue _ _) as [[foundProject foundIssue] |];
    [| reflexivity].
  rewrite run_bind, fetchLatestEvent_run. reflexivity.
Qed.

Lemma resolveIssue_not_found_run (host : Host) (up : Upstream)
  (log : list AnyRequest) (args : SentryMCPServer.Args)
  (st : SentryMCPServer.State) :
  JS.truthy (SentryMCPServer.issueId args) = true →
  SentryMCPServer.find_issue (JS.show (SentryMCPServer.issueId args))
    (bulk_fetch up log (SentryMCPServer.sentryClient st)).1 = None →
  run up log (SentryMCPServer.resolveIssue args st) =
  (Thrown (Error ("Issue not found: " +:+
                  JS.show (SentryMCPServer.issueId args))),
   st, (bulk_fetch up log (SentryMCPServer.sentryClient st)).2).
Proof.
  intros Hid Hfind. unfold SentryMCPServer.resolveIssue. rewrite Hid.
  cbn [negb]. rewrite run_bind. cbn [gets run fst snd].
  rewrite run_bind, fetchAllIssues_run. cbn [fst snd].
  by rewrite Hfind.
Qed.

Lemma find_issue_None (issueId : string) (m : IssuesByProject) :
  SentryMCPServer.find_issue issueId m = None ↔
  ∀ project issues issue,
    (project, issues) ∈ m → issue ∈ issues →
    id issue ≠ issueId ∧ shortId issue ≠ issueId.
Proof.
  induction m as [| [p l] m IH]; simpl.
  - split; [| done]. intros _ project issues issue Hin.
    by apply elem_of_nil in Hin.
  - assert (JS.find (SentryMCPServer.is_issue issueId) l = None ↔
            ∀ issue, issue ∈ l → id issue ≠ issueId ∧ shortId issue ≠ issueId)
      as Hl.
    { clear IH. induction l as [| i l IHl]; simpl.
      - split; [| done]. intros _ issue Hin. by apply elem_of_nil in Hin.
      - unfold SentryMCPServer.is_issue at 1.
        destruct (String.eqb (id i) issueId) eqn:E1; simpl.
        + apply String.eqb_eq in E1. split; [done |].
          intros H. by destruct (H i ltac:(left)).
        + destruct (String.eqb (shortId i) issueId) eqn:E2.
          * apply String.eqb_eq in E2. split; [done |].
            intros H. by destruct (H i ltac:(left)).
          * apply String.eqb_neq in E1, E2. rewrite IHl. split.
            -- intros H issue [-> | Hin]%elem_of_cons; [done | by apply H].
            -- intros H issue Hin. apply H. by right. }
    destruct (JS.find (SentryMCPServer.is_issue issueId) l) as [found |] eqn:E.
    + split; [done |]. intros H.
      assert (Some found = None) as Habs; [| done].
      apply Hl. intros issue Hin. apply (H p l issue); [by left | done].
    + rewrite IH. split.
      * intros H project issues issue [[= -> ->] | Hin]%elem_of_cons Hi.
        -- by apply (proj1 Hl).
        -- by apply (H project issues).
      * intros H project issues issue Hin Hi.
        apply (H project issues); [by right | done].
Qed.

Lemma append_stack_trace_block (host : Host) (details : string)
  (event : SentryEvent) (values : list ExceptionValue) :
  exception_values event = Some values →
  SentryMCPServer.append_stack_trace details event =
  details +:+ stack_trace_block host values.
Proof.
  unfold exception_values, SentryMCPServer.append_stack_trace. intros ->.
  rewrite (append_exceptions_block host). unfold stack_trace_block.
  by rewrite !string_app_assoc.
Qed.

Lemma append_breadcrumbs_suffix (host : Host) (details : string)
  (event : SentryEvent) :
  ∃ x, SentryMCPServer.append_breadcrumbs host details event = details +:+ x.
Proof.
  unfold SentryMCPServer.append_breadcrumbs.
  destruct (breadcrumbs_values event) as [[| b bs] |].
  - exists "". by rewrite string_app_nil_r.
  - rewrite (foldl_append (SentryMCPServer.render_breadcrumb host)).
    eexists. by rewrite !string_app_assoc.
  - exists "". by rewrite string_app_nil_r.
Qed.

Lemma append_tags_suffix (details : string) (event : SentryEvent) :
  ∃ x, SentryMCPServer.append_tags details event = details +:+ x.
Proof.
  unfold SentryMCPServer.append_tags.
  destruct (ev_tags event) as [[| t ts] |].
  - exists "". by rewrite string_app_nil_r.
  - rewrite (foldl_append
      (λ tag, "- **" +:+ tag_key tag +:+ ":** " +:+ tag_value tag +:+ JS.nl)).
    eexists. by rewrite !string_app_assoc.
  - exists "". by rewrite string_app_nil_r.
Qed.

Lemma dispatch_details (host : Host) (args : SentryMCPServer.Args) :
  SentryMCPServer.dispatch host "sentry_get_issue_details" args =
  SentryMCPServer.getIssueDetails host args.
Proof. reflexivity. Qed.

Lemma dispatch_resolve (host : Host) (args : SentryMCPServer.Args) :
  SentryMCPServer.dispatch host "sentry_resolve_issue" args =
  SentryMCPServer.resolveIssue args.
Proof. reflexivity. Qed.

Lemma truthy_Some (s : string) : s ≠ "" → JS.truthy (Some s) = true.
Proof.
  intros Hne. unfold JS.truthy. apply negb_true_iff. by apply String.eqb_neq.
Qed.

(** C5. In the text the detail operation returns, the stack trace block
    lists the exceptions in the reverse of the stored order, and under each
    exception the frames in the reverse of the upstream order: for frames
    received as outer, middle, inner, the line of the inner frame comes
    first. *)
Theorem stack_trace_innermost_first (host : Host) (up : Upstream)
  (log : list AnyRequest) (st : SentryMCPServer.State)
  (args : SentryMCPServer.Args) (issueId_ foundProject : string)
  (foundIssue : SentryIssue) (event : SentryEvent)
  (values : list ExceptionValue) :
  SentryMCPServer.issueId args = Some issueId_ →
  issueId_ ≠ "" →
  SentryMCPServer.find_issue issueId_
    (bulk_fetch up log (SentryMCPServer.sentryClient st)).1
    = Some (foundProject, foundIssue) →
  latest_event up (bulk_fetch up log (SentryMCPServer.sentryClient st)).2
    (id foundIssue) = Some event →
  exception_values event = Some values →
  (∃ rest,
     (run up log
        (SentryMCPServer.callTool host "sentry_get_issue_details" args st)).1.1
     = Returned (SentryMCPServer.success
         (details_preamble host foundProject foundIssue event +:+
          stack_trace_block host values +:+ rest))) ∧
  (∀ details frames,
     SentryMCPServer.append_frames details frames =
     details +:+ frames_block host frames) ∧
  (∀ details chain,
     SentryMCPServer.append_exceptions details chain =
     details +:+ concat_strings (exception_block host <$> reverse chain)) ∧
  (∀ outer middle inner,
     frames_block host [outer; middle; inner] =
     SentryMCPServer.render_frame inner +:+
     SentryMCPServer.render_frame middle +:+
     SentryMCPServer.render_frame outer) ∧
  (∀ wrapping originating,
     concat_strings (exception_block host <$> reverse [wrapping; originating]) =
     exception_block host originating +:+ exception_block host wrapping).
Proof.
  intros Hargs Hne Hfind Hevent Hvalues.
  split; [| split; [| split; [| split]]].
  - rewrite callTool_run, dispatch_details.
    rewrite getIssueDetails_run by (rewrite Hargs; by apply truthy_Some).
    rewrite Hargs. cbn [JS.show]. rewrite Hfind. cbn [fst snd]. rewrite Hevent.
    unfold SentryMCPServer.render_details, SentryMCPServer.render_event.
    rewrite (append_stack_trace_block host _ _ values Hvalues).
    destruct (append_breadcrumbs_suffix host
      ((SentryMCPServer.render_header host foundProject foundIssue +:+
        "## Error Message" +:+ JS.nl +:+ JS.nl +:+
        JS.or_default (metadata_value foundIssue) (ev_message event) +:+
        JS.nl +:+ JS.nl) +:+ stack_trace_block host values) event)
      as [x ->].
    destruct (append_tags_suffix
      (((SentryMCPServer.render_header host foundProject foundIssue +:+
         "## Error Message" +:+ JS.nl +:+ JS.nl +:+
         JS.or_default (metadata_value foundIssue) (ev_message event) +:+
         JS.nl +:+ JS.nl) +:+ stack_trace_block host values) +:+ x) event)
      as [y ->].
    eexists. unfold details_preamble.
    rewrite !string_app_assoc. reflexivity.
  - apply append_frames_block.
  - apply append_exceptions_block.
  - intros outer middle inner. unfold frames_block. cbn [reverse rev_append fmap list_fmap concat_strings foldr].
    by rewrite string_app_nil_r.
  - intros wrapping originating. cbn [reverse rev_append fmap list_fmap concat_strings foldr].
    by rewrite string_app_nil_r.
Qed.

Lemma slug_request_params (projectSlug : string) (r : AnyRequest) :
  slug_request projectSlug = Some r →
  ∃ org project,
    r = existT _ (GetOrganizationIssues org
          {| statsPeriod := "14d";
             query := "project:" +:+ project +:+ " is:unresolved";
             sort := "date";
             limit := 25 |}).
Proof.
  unfold slug_request. destruct (negb _ || negb _); [done |].
  intros [= <-]. by eexists _, _.
Qed.

(** C10. The detail and the resolve operations look an identifier up in the
    map the bulk fetch has just returned, and nowhere else.  The bulk fetch
    asks, per configured project, for the unresolved issues with a 14-day
    stats period and a limit of 25.  For an identifier (a non-empty string)
    that is neither the id nor the short id of a fetched issue, both
    operations answer with the not-found error, and the only requests made
    are those of the bulk fetch: no event is fetched and no issue is
    updated. *)
Theorem unfetched_identifier_not_found (host : Host) (up : Upstream)
  (log : list AnyRequest) (st : SentryMCPServer.State)
  (args : SentryMCPServer.Args) (issueId_ : string) :
  SentryMCPServer.issueId args = Some issueId_ →
  issueId_ ≠ "" →
  (∀ project issues issue,
     (project, issues) ∈ (bulk_fetch up log (SentryMCPServer.sentryClient st)).1 →
     issue ∈ issues → id issue ≠ issueId_ ∧ shortId issue ≠ issueId_) →
  run up log (SentryMCPServer.callTool host "sentry_get_issue_details" args st)
    = (Returned (error_result ("Issue not found: " +:+ issueId_)), st,
       log ++ fetch_sequence (SentryMCPServer.sentryClient st)) ∧
  run up log (SentryMCPServer.callTool host "sentry_resolve_issue" args st)
    = (Returned (error_result ("Issue not found: " +:+ issueId_)), st,
       log ++ fetch_sequence (SentryMCPServer.sentryClient st)) ∧
  (∀ r, r ∈ fetch_sequence (SentryMCPServer.sentryClient st) →
     ∃ org project,
       r = existT _ (GetOrganizationIssues org
             {| statsPeriod := "14d";
                query := "project:" +:+ project +:+ " is:unresolved";
                sort := "date";
                limit := 25 |})).
Proof.
  intros Hargs Hne Hout.
  assert (JS.truthy (SentryMCPServer.issueId args) = true) as Hid
    by (rewrite Hargs; by apply truthy_Some).
  apply find_issue_None in Hout.
  split; [| split].
  - rewrite callTool_run, dispatch_details, getIssueDetails_run by done.
    rewrite Hargs. cbn [JS.show]. rewrite Hout. cbn [fst snd error_message].
    by rewrite bulk_fetch_log.
  - rewrite callTool_run, dispatch_resolve.
    rewrite (resolveIssue_not_found_run host); [| done | by rewrite Hargs].
    rewrite Hargs. cbn [JS.show fst snd error_message].
    by rewrite bulk_fetch_log.
  - intros r Hr. unfold fetch_sequence in Hr.
    apply list_elem_of_omap in Hr as (slug & _ & Hslug).
    by apply slug_request_params in Hslug.
Qed.

(** ** [updateTaskStatus] *)








(** ** [addClickUpComment] *)



(** ** [searchIssues] *)













(** The theorem on the concrete event, looked up by its short id. *)
Lemma stack_trace_innermost_first_witness :
  let args :=
    {| SentryMCPServer.search := None; SentryMCPServer.project := None;
       SentryMCPServer.limit_ := None; SentryMCPServer.issueId := Some "WEB-1";
       SentryMCPServer.taskId := None; SentryMCPServer.comment := None;
       SentryMCPServer.statusName := None |} in
  ∃ rest,
    (run demo_full_upstream []
       (SentryMCPServer.callTool demo_host "sentry_get_issue_details" args
          demo_server)).1.1
    = Returned (SentryMCPServer.success
        (details_preamble demo_host "acme/web" demo_issue demo_event +:+
         stack_trace_block demo_host demo_values +:+ rest)).
Proof.
  intros args.
  apply (proj1 (stack_trace_innermost_first demo_host demo_full_upstream []
    demo_server args "WEB-1" "acme/web" demo_issue demo_event demo_values
    eq_refl ltac:(done) eq_refl eq_refl eq_refl)).
Defined.


(** The theorem on an identifier the tracker did not return. *)
Lemma unfetched_identifier_not_found_witness :
  let args :=
    {| SentryMCPServer.search := None; SentryMCPServer.project := None;
       SentryMCPServer.limit_ := None; SentryMCPServer.issueId := Some "9999";
       SentryMCPServer.taskId := None; SentryMCPServer.comment := None;
       SentryMCPServer.statusName := None |} in
  run demo_full_upstream []
    (SentryMCPServer.callTool demo_host "sentry_resolve_issue" args demo_server)
  = (Returned (error_result "Issue not found: 9999"), demo_server,
     fetch_sequence demo_config).
Proof.
  intros args.
  refine (proj1 (proj2 (unfetched_identifier_not_found demo_host
    demo_full_upstream [] demo_server args "9999" eq_refl ltac:(done) _))).
  intros project issues issue Hin Hissue. vm_compute in Hin.
  apply elem_of_cons in Hin as [[= -> ->] | Hin];
    [| by apply elem_of_nil in Hin].
  apply elem_of_cons in Hissue as [-> | Hissue];
    [| by apply elem_of_nil in Hissue].
  by vm_compute.
Defined.

(** The search scenario of the specification: no filter, limit 25, two
    entries, each with its short id and its permalink. *)
Example search_scenario :
  let args :=
    {| SentryMCPServer.search := None; SentryMCPServer.project := None;
       SentryMCPServer.limit_ := Some 25%Z; SentryMCPServer.issueId := None;
       SentryMCPServer.taskId := None; SentryMCPServer.comment := None;
       SentryMCPServer.statusName := None |} in
  SentryMCPServer.search_results args
    (bulk_fetch scenario_upstream []
       (SentryMCPServer.sentryClient scenario_server)).1
  = [("acme/web", demo_issue); ("acme/web", second_issue)] ∧
  JS.map_keys
    (bulk_fetch scenario_upstream []
       (SentryMCPServer.sentryClient scenario_server)).1
  = ["acme/web"; "acme/api"] ∧
  (run scenario_upstream []
     (SentryMCPServer.callTool demo_host "sentry_search_issues" args
        scenario_server)).1.1
  = Returned (SentryMCPServer.success
      (SentryMCPServer.render_entry demo_host ("acme/web", demo_issue) +:+
       JS.nl +:+ "---" +:+ JS.nl +:+ JS.nl +:+
       SentryMCPServer.render_entry demo_host ("acme/web", second_issue))).
Proof. by vm_compute. Qed.

(** A call with a negative limit: [slice(0, -1)] drops the last match. *)
Example search_negative_limit :
  let args :=
    {| SentryMCPServer.search := None; SentryMCPServer.project := None;
       SentryMCPServer.limit_ := Some (-1)%Z; SentryMCPServer.issueId := None;
       SentryMCPServer.taskId := None; SentryMCPServer.comment := None;
       SentryMCPServer.statusName := None |} in
  SentryMCPServer.search_results args
    (bulk_fetch scenario_upstream []
       (SentryMCPServer.sentryClient scenario_server)).1
  = [("acme/web", demo_issue)].
Proof. by vm_compute. Qed.

(** The detail text of the concrete event lists the inner frame first. *)
Example stack_trace_scenario :
  stack_trace_block demo_host demo_values =
  "## Stack Trace" +:+ JS.nl +:+ JS.nl +:+ "```" +:+ JS.nl +:+
  "TypeError: x is undefined" +:+ JS.nl +:+
  "  at inner (db.js:30)" +:+ JS.nl +:+
  "  at middle (lib.js:20)" +:+ JS.nl +:+
  "  at outer (app.js:10)" +:+ JS.nl +:+
  "```" +:+ JS.nl +:+ JS.nl.
Proof. by vm_compute. Qed.
